(** * Birth-certificate verification pipeline (src/app.py)

    A shallow embedding of the decision logic of [app.py]: document-type
    classification, serial-number detection, the two visual verdicts, the
    additive confidence score and the recommendation.

    Modelling choices.
    - The text that the OCR engine returns is a Python [str]: a list of
      Unicode code points ([Str.text]). Python's knowledge of the characters
      outside ASCII, which [str.upper()] and the class [\w] of [re] rely on,
      is a parameter (the class [Unicode]): what is proved holds for every
      character database. On ASCII the program's behaviour is fixed by the
      model itself.
    - The texts the program itself writes (labels, verdicts, the report) are
      ASCII, apart from the emoji of the recommendation, and are [string]s.
      A serial number is cut out of the OCR text but made of characters of
      [[A-Z0-9]] only, and is a [string] too.
    - Python integers are [Z]; the two image statistics ([np.mean] of the
      Canny edges and the variance of the Laplacian) are finite binary64
      values, hence rationals, and are modelled in [Q].
    - OpenCV, NumPy and Tesseract are external: they are variables of the
      section [Pipeline], each one fallible, and the code that calls them
      lives in a small error monad that propagates what they raise. *)

From Stdlib Require Import Bool Arith ZArith NArith QArith Qround Qabs.
From Stdlib Require Import Lia Lqa List.
From Stdlib Require Import Ascii String DecimalString DecimalPos DecimalN.
Import ListNotations.

Local Close Scope Q_scope.
Local Open Scope string_scope.

(* ------------------------------------------------------------------ *)
(** * Python's character database

    The uppercase of one character is one to three characters (CPython's
    [_PyUnicode_ToUpperFull] fills a buffer of three code points). *)

Inductive uppercase : Type :=
| One (a : N)
| Two (a b : N)
| Three (a b c : N).

Class Unicode : Type := {
  upper_nonascii : N -> uppercase;
  alnum_nonascii : N -> bool
}.

(* ------------------------------------------------------------------ *)
(** * Python [str] values that come from outside: lists of code points *)

Module Str.

Definition text : Type := list N.

Definition code (c : ascii) : N := N_of_ascii c.

(** An ASCII literal as a text, and a text of ASCII characters as a
    [string]. *)
Definition of_string (s : string) : text :=
  List.map code (list_ascii_of_string s).

Definition to_string (t : text) : string :=
  string_of_list_ascii (List.map ascii_of_N t).

Definition in_range (lo hi : ascii) (c : N) : bool :=
  ((code lo <=? c) && (c <=? code hi))%N%bool.

Definition is_upper (c : N) : bool := in_range "A" "Z" c.
Definition is_lower (c : N) : bool := in_range "a" "z" c.
Definition is_digit (c : N) : bool := in_range "0" "9" c.
Definition is_ascii (c : N) : bool := (c <? 128)%N.

Definition chars (u : uppercase) : text :=
  match u with
  | One a => [a]
  | Two a b => [a; b]
  | Three a b c => [a; b; c]
  end.

Section WithUnicode.
Context {U : Unicode}.

(** [str.upper()] on one character: [a-z] go to [A-Z], the rest of ASCII
    stays, and the database answers for the other characters. *)
Definition upper_char (c : N) : text :=
  if is_lower c then [(c - 32)%N]
  else if is_ascii c then [c]
  else chars (upper_nonascii c).

(** [text.upper()] *)
Definition upper (t : text) : text := List.flat_map upper_char t.

(** [str.isalnum()] on one character. *)
Definition is_alnum (c : N) : bool :=
  if is_ascii c then (is_upper c || is_lower c || is_digit c)%bool
  else alnum_nonascii c.

End WithUnicode.

Fixpoint prefix (p s : text) : bool :=
  match p, s with
  | [], _ => true
  | _ :: _, [] => false
  | a :: p', b :: s' => ((a =? b)%N && prefix p' s')%bool
  end.

(** [needle in hay]: the needle starts at some position of the haystack. *)
Fixpoint contains (needle hay : text) : bool :=
  (prefix needle hay
   || match hay with
      | [] => false
      | _ :: hay' => contains needle hay'
      end)%bool.

(** The character just before a position, when the text to its left is
    [pre]; [None] at the start of the text. *)
Fixpoint last (pre : text) : option N :=
  match pre with
  | [] => None
  | [c] => Some c
  | _ :: pre' => last pre'
  end.

Definition head (s : text) : option N :=
  match s with
  | [] => None
  | c :: _ => Some c
  end.

End Str.

Coercion Str.of_string : string >-> Str.text.

(* ------------------------------------------------------------------ *)
(** * Python [str] values that the program writes: strings *)

Module Text.

Definition in_range (lo hi c : ascii) : bool :=
  (Ascii.leb lo c && Ascii.leb c hi)%bool.

Definition is_digit (c : ascii) : bool := in_range "0" "9" c.

(** [needle in hay]: the needle starts at some position of the haystack. *)
Fixpoint contains (needle hay : string) : bool :=
  (prefix needle hay
   || match hay with
      | EmptyString => false
      | String _ hay' => contains needle hay'
      end)%bool.

Fixpoint forallb (p : ascii -> bool) (s : string) : bool :=
  match s with
  | EmptyString => true
  | String c s' => (p c && forallb p s')%bool
  end.

End Text.

(* ------------------------------------------------------------------ *)
(** * The fragment of Python's [re] that the serial pattern uses

    A pattern is a sequence of items; [re.search] tries every start position
    from left to right and, at each one, matches the items by backtracking,
    a bounded repetition being greedy. *)

Module Re.

Inductive item : Type :=
| WordBoundary
| Repeat (cls : N -> bool) (lo hi : nat).

Definition pattern := list item.

Section Greedy.
Variable cls : N -> bool.
Variable k : option N -> Str.text -> option Str.text.

(** [cls{lo,hi}] followed by the continuation [k]: one more character is
    tried first, and the repetition stops only when that fails. *)
Fixpoint greedy (lo hi : nat) (prev : option N) (s : Str.text)
  : option Str.text :=
  let stop := match lo with O => k prev s | S _ => None end in
  match hi, s with
  | S hi', c :: s' =>
      if cls c then
        match greedy (Nat.pred lo) hi' (Some c) s' with
        | Some m => Some (c :: m)
        | None => stop
        end
      else stop
  | _, _ => stop
  end.
End Greedy.

Section WithUnicode.
Context {U : Unicode}.

(** [\w]: alphanumeric in Unicode's sense, or the underscore. *)
Definition is_word (c : N) : bool :=
  (Str.is_alnum c || (c =? Str.code "_")%N)%bool.

Definition word_opt (c : option N) : bool :=
  match c with
  | Some c => is_word c
  | None => false
  end.

(** [\b] holds between a word character and a non-word character, the
    outside of the text counting as non-word. *)
Definition at_boundary (prev : option N) (s : Str.text) : bool :=
  xorb (word_opt prev) (word_opt (Str.head s)).

(** Match the pattern at the current position; the result is the matched
    text, [match.group(0)]. *)
Fixpoint match_here (p : pattern) (prev : option N) (s : Str.text)
  : option Str.text :=
  match p with
  | [] => Some []
  | WordBoundary :: p' =>
      if at_boundary prev s then match_here p' prev s else None
  | Repeat cls lo hi :: p' => greedy cls (match_here p') lo hi prev s
  end.

Fixpoint search_from (p : pattern) (prev : option N) (s : Str.text)
  : option Str.text :=
  match match_here p prev s with
  | Some m => Some m
  | None =>
      match s with
      | [] => None
      | c :: s' => search_from p (Some c) s'
      end
  end.

(** [re.search(p, s)] *)
Definition search (p : pattern) (s : Str.text) : option Str.text :=
  search_from p None s.

End WithUnicode.

End Re.

(* ------------------------------------------------------------------ *)
(** * Exceptions *)

Inductive result (E A : Type) : Type :=
| Ok (a : A)
| Raise (e : E).

Arguments Ok {E A} a.
Arguments Raise {E A} e.

Definition bind {E A B : Type} (m : result E A) (f : A -> result E B)
  : result E B :=
  match m with
  | Ok a => f a
  | Raise e => Raise e
  end.

Notation "x <- m ;; f" := (bind m (fun x => f))
  (at level 61, m at next level, right associativity).

(* ------------------------------------------------------------------ *)
(** * Numbers: comparisons of floats, and [f"{v:.2f}"] *)

Module Fmt.

(** [x < y] and [x <= y] *)
Definition ltb (x y : Q) : bool := negb (Qle_bool y x).
Definition leb (x y : Q) : bool := Qle_bool x y.

(** Nearest integer, ties to the even one. *)
Definition round_half_even (q : Q) : Z :=
  let f := Qfloor q in
  match Qcompare (q - inject_Z f)%Q (1 # 2)%Q with
  | Lt => f
  | Gt => (f + 1)%Z
  | Eq => if Z.even f then f else (f + 1)%Z
  end.

Definition decimal (n : Z) : string :=
  NilZero.string_of_uint (N.to_uint (Z.to_N n)).

Definition two_digits (n : Z) : string :=
  ((if (n <? 10)%Z then "0" else "") ++ decimal n).

(** The number of hundredths that [.2f] prints for [v], sign apart. *)
Definition hundredths (v : Q) : Z := round_half_even (Qabs v * 100)%Q.

Definition format_2f (v : Q) : string :=
  let c := hundredths v in
  (if ltb v 0 then "-" else "")
    ++ decimal (c / 100) ++ "." ++ two_digits (c mod 100).

End Fmt.

(* ------------------------------------------------------------------ *)
(** * The program *)

Module App.

(** [[A-Z0-9]] *)
Definition upper_or_digit (c : N) : bool :=
  (Str.is_upper c || Str.is_digit c)%bool.

(** [r'\b[A-Z0-9]{7,12}\b'] *)
Definition serial_pattern : Re.pattern :=
  [Re.WordBoundary; Re.Repeat upper_or_digit 7 12; Re.WordBoundary].

(** ** Visual verdicts, from the image statistic *)

Definition seal_status_of (edge_score : Q) : string :=
  if Fmt.ltb 100 edge_score then "Seal/Signature Detected"
  else "Seal/Signature Not Detected".

Definition pixelation_result_of (laplacian_var : Q) : string :=
  if Fmt.ltb laplacian_var 50 then
    "High Pixelation Detected (Possible Tampering) - Score: "
      ++ Fmt.format_2f laplacian_var
  else if (Fmt.leb 50 laplacian_var && Fmt.ltb laplacian_var 100)%bool then
    "Moderate Pixelation - Score: " ++ Fmt.format_2f laplacian_var
  else
    "Low Pixelation (Likely Authentic) - Score: "
      ++ Fmt.format_2f laplacian_var.

(** ** Scoring *)

Definition confidence_score
  (document_type serial_number seal_status pixelation_result : string) : Z :=
  let score := 0%Z in
  let score :=
    if negb (document_type =? "Unknown Document Type") then (score + 3)%Z
    else score in
  let score :=
    if negb (serial_number =? "Not Found") then (score + 2)%Z else score in
  let score :=
    if Text.contains "Detected" seal_status then (score + 3)%Z else score in
  let score :=
    if Text.contains "Low Pixelation" pixelation_result then (score + 2)%Z
    else if Text.contains "Moderate Pixelation" pixelation_result then
      (score + 1)%Z
    else score in
  score.

Definition recommendation (confidence_score : Z) : string :=
  if (7 <=? confidence_score)%Z then
    "✅ Proceed - Document appears valid."
  else if ((5 <=? confidence_score) && (confidence_score <? 7))%Z%bool then
    "⚠️ Hold for Further Review - Some inconsistencies detected."
  else
    "🚨 High Fraud Risk - Do not proceed without additional verification.".

Record report : Type := Report {
  document_type : string;
  serial_number : string;
  seal_status : string;
  pixelation_result : string;
  score : Z;
  verdict : string
}.

Section WithUnicode.
Context {U : Unicode}.

(** ** Text classifiers *)

Definition detect_document_type (text : Str.text) : string :=
  if Str.contains "CERTIFICATE OF BIRTH" (Str.upper text) then
    "Certificate of Birth"
  else if Str.contains "CERTIFIED TRANSCRIPT OF BIRTH" (Str.upper text) then
    "Certified Birth Transcript"
  else if Str.contains "CERTIFICATE OF LIVE BIRTH" (Str.upper text) then
    "Certificate of Live Birth"
  else
    "Unknown Document Type".

(** The match, when there is one, is made of characters of [[A-Z0-9]]. *)
Definition check_serial_number (text : Str.text) : string :=
  match Re.search serial_pattern text with
  | Some m => Str.to_string m
  | None => "Not Found"
  end.

(** What the script computes once the text and the two statistics are
    known. *)
Definition assess (extracted_text : Str.text) (edge_score laplacian_var : Q)
  : report :=
  let document_type := detect_document_type extracted_text in
  let serial_number := check_serial_number extracted_text in
  let seal_status := seal_status_of edge_score in
  let pixelation_result := pixelation_result_of laplacian_var in
  let confidence_score :=
    confidence_score document_type serial_number seal_status
      pixelation_result in
  Report document_type serial_number seal_status pixelation_result
    confidence_score (recommendation confidence_score).

(** ** The functions that touch the image *)

Section Pipeline.
Variables Image Exn : Type.
(** [cv2.cvtColor(image, cv2.COLOR_BGR2GRAY)] *)
Variable cvtColor_BGR2GRAY : Image -> result Exn Image.
(** [cv2.GaussianBlur(gray, (5, 5), 0)] *)
Variable GaussianBlur_5x5 : Image -> result Exn Image.
(** [cv2.addWeighted(src1, alpha, src2, beta, gamma)] *)
Variable addWeighted : Image -> Q -> Image -> Q -> Q -> result Exn Image.
(** [pytesseract.image_to_string(image, config='--psm 6')] *)
Variable image_to_string : Image -> result Exn Str.text.
(** [np.mean(cv2.Canny(image, 100, 200))] *)
Variable Canny_mean : Image -> result Exn Q.
(** [cv2.Laplacian(image, cv2.CV_64F).var()] *)
Variable Laplacian_var : Image -> result Exn Q.

Definition preprocess_image (image : Image) : result Exn Image :=
  gray <- cvtColor_BGR2GRAY image ;;
  blurred <- GaussianBlur_5x5 gray ;;
  sharpened <- addWeighted gray (3 # 2) blurred (- (1 # 2)) 0 ;;
  Ok sharpened.

Definition extract_text (image : Image) : result Exn Str.text :=
  preprocessed_image <- preprocess_image image ;;
  text <- image_to_string preprocessed_image ;;
  Ok text.

Definition detect_seals_and_signatures (image : Image)
  : result Exn string :=
  edge_score <- Canny_mean image ;;
  Ok (seal_status_of edge_score).

Definition pixelation_analysis (image : Image) : result Exn string :=
  laplacian_var <- Laplacian_var image ;;
  Ok (pixelation_result_of laplacian_var).

(** The body of [if uploaded_file:], from the decoded image on. *)
Definition validate (image_cv : Image) : result Exn report :=
  extracted_text <- extract_text image_cv ;;
  let document_type := detect_document_type extracted_text in
  let serial_number := check_serial_number extracted_text in
  seal_status <- detect_seals_and_signatures image_cv ;;
  pixelation_result <- pixelation_analysis image_cv ;;
  let confidence_score :=
    confidence_score document_type serial_number seal_status
      pixelation_result in
  Ok (Report document_type serial_number seal_status pixelation_result
        confidence_score (recommendation confidence_score)).
End Pipeline.

End WithUnicode.

End App.

(* ------------------------------------------------------------------ *)
(** * The specification's vocabulary

    The signals and the rule table as section 4.5 of the specification words
    them, and the text each signal takes in the program. *)

Module Spec.

Inductive DocumentTypeLabel : Type :=
| CertificateOfBirth
| CertifiedBirthTranscript
| CertificateOfLiveBirth
| Unknown.

Inductive SerialNumber : Type :=
| Token (s : string)
| NotFound.

Inductive SealVerdict : Type :=
| Detected
| NotDetected.

Inductive PixelationVerdict : Type :=
| LowPixelation
| ModeratePixelation
| HighPixelation.

Inductive Recommendation : Type :=
| Proceed
| HoldForReview
| HighFraudRisk.

Definition label_text (d : DocumentTypeLabel) : string :=
  match d with
  | CertificateOfBirth => "Certificate of Birth"
  | CertifiedBirthTranscript => "Certified Birth Transcript"
  | CertificateOfLiveBirth => "Certificate of Live Birth"
  | Unknown => "Unknown Document Type"
  end.

Definition serial_text (s : SerialNumber) : string :=
  match s with
  | Token t => t
  | NotFound => "Not Found"
  end.

Definition seal_text (v : SealVerdict) : string :=
  match v with
  | Detected => "Seal/Signature Detected"
  | NotDetected => "Seal/Signature Not Detected"
  end.

Definition pixelation_text (v : PixelationVerdict) : string :=
  match v with
  | LowPixelation => "Low Pixelation (Likely Authentic) - Score: "
  | ModeratePixelation => "Moderate Pixelation - Score: "
  | HighPixelation =>
      "High Pixelation Detected (Possible Tampering) - Score: "
  end.

Definition recommendation_text (r : Recommendation) : string :=
  match r with
  | Proceed => "✅ Proceed - Document appears valid."
  | HoldForReview =>
      "⚠️ Hold for Further Review - Some inconsistencies detected."
  | HighFraudRisk =>
      "🚨 High Fraud Risk - Do not proceed without additional verification."
  end.

(** The thresholds of section 4.4 on the Laplacian variance. *)
Definition pixelation_verdict (v : Q) : PixelationVerdict :=
  if Qlt_le_dec v 50 then HighPixelation
  else if Qlt_le_dec v 100 then ModeratePixelation
  else LowPixelation.

(** The four rows of the rule table. *)
Definition doc_points (d : DocumentTypeLabel) : Z :=
  match d with Unknown => 0 | _ => 3 end.

Definition serial_points (s : SerialNumber) : Z :=
  match s with NotFound => 0 | Token _ => 2 end.

Definition seal_points (v : SealVerdict) : Z :=
  match v with Detected => 3 | NotDetected => 0 end.

Definition pixelation_points (v : PixelationVerdict) : Z :=
  match v with
  | LowPixelation => 2
  | ModeratePixelation => 1
  | HighPixelation => 0
  end.

Definition rule_score (d : DocumentTypeLabel) (s : SerialNumber)
  (v : SealVerdict) (p : PixelationVerdict) : Z :=
  (doc_points d + serial_points s + seal_points v + pixelation_points p)%Z.

(** The three phrases of the classifier, in its order. *)
Definition phrases : list Str.text :=
  [Str.of_string "CERTIFICATE OF BIRTH";
   Str.of_string "CERTIFIED TRANSCRIPT OF BIRTH";
   Str.of_string "CERTIFICATE OF LIVE BIRTH"].

(** Two texts that differ at most in the case of their letters [a-z] and
    [A-Z]. *)
Inductive case_variant : Str.text -> Str.text -> Prop :=
| cv_nil : case_variant [] []
| cv_same c s t : case_variant s t -> case_variant (c :: s) (c :: t)
| cv_up c s t :
    Str.is_lower c = true -> case_variant s t ->
    case_variant (c :: s) ((c - 32)%N :: t)
| cv_down c s t :
    Str.is_lower c = true -> case_variant s t ->
    case_variant ((c - 32)%N :: s) (c :: t).

(** The text with its letters [A-Z] in lowercase, which is what
    [str.lower()] makes of an ASCII text. *)
Definition lowercase (t : Str.text) : Str.text :=
  List.map (fun c => if Str.is_upper c then (c + 32)%N else c) t.

Definition ascii_text (t : Str.text) : bool := List.forallb Str.is_ascii t.

(** A phrase in uppercase ASCII. *)
Definition plain (phrase : Str.text) : bool :=
  List.forallb (fun c => Str.is_ascii c && negb (Str.is_lower c))%bool phrase.

(** A phrase occurs in a text, as it is written. *)
Definition occurs (phrase text : Str.text) : Prop :=
  exists pre post, text = (pre ++ phrase ++ post)%list.

(** A phrase occurs in a text without regard to the case of the letters
    [a-z] and [A-Z]. *)
Definition occurs_ci (phrase text : Str.text) : Prop :=
  exists pre mid post,
    text = (pre ++ mid ++ post)%list /\ case_variant mid phrase.

(** A serial number: 7 to 12 characters of [[A-Z0-9]]. *)
Definition well_formed (tok : Str.text) : Prop :=
  7 <= List.length tok <= 12
  /\ List.forallb App.upper_or_digit tok = true.

Section WithUnicode.
Context {U : Unicode}.

(** A phrase is found by the search that disregards case the way the
    program does, by putting the text in uppercase. *)
Definition found (phrase text : Str.text) : Prop :=
  occurs phrase (Str.upper text).

(** A serial number in a text: no word character (letter, digit or
    underscore) next to it. *)
Definition serial_at (pre tok post : Str.text) : Prop :=
  well_formed tok
  /\ Re.word_opt (Str.last pre) = false
  /\ Re.word_opt (Str.head post) = false.

(** The same with the specification's gloss of a word boundary: no
    letter or digit next to the run. *)
Definition alnum_opt (c : option N) : bool :=
  match c with
  | Some c => Str.is_alnum c
  | None => false
  end.

Definition run_at (pre tok post : Str.text) : Prop :=
  well_formed tok
  /\ alnum_opt (Str.last pre) = false
  /\ alnum_opt (Str.head post) = false.

End WithUnicode.

(** Reading a run of decimal digits back as a number. *)
Definition parse_decimal (s : string) : option Z :=
  option_map (fun d => Z.of_N (N.of_uint d)) (NilZero.uint_of_string s).

(** The characters [.2f] can print for a finite number. *)
Definition numeric_char (c : ascii) : bool :=
  (Text.is_digit c || Ascii.eqb c "." || Ascii.eqb c "-")%bool.

End Spec.

(* ------------------------------------------------------------------ *)
(** * Stand-ins for what is outside the program

    A fragment of the character database, and toy images and engines on
    which the pipeline can be run: an image is a number, the engine reads a
    fixed certificate from image 0, reports no text on image 1 and fails on
    every other image. *)

Module Stub.

(** Dotless i, long s, sharp s, e acute and the ligature fi have the
    uppercase Unicode gives them; the Latin letters from U+00C0 to U+024F
    and the ligature are alphanumeric. The other characters are taken to
    have no case and not to be alphanumeric. *)
Definition unicode : Unicode := {|
  upper_nonascii c :=
    match c with
    | 305%N => One 73
    | 383%N => One 83
    | 223%N => Two 83 83
    | 233%N => One 201
    | 64257%N => Two 70 73
    | _ => One c
    end;
  alnum_nonascii c :=
    (((192 <=? c) && (c <=? 591) && negb (c =? 215) && negb (c =? 247))
     || (c =? 64257))%N%bool
|}.

Inductive exn : Type :=
| TesseractError
| CvError.

Definition image := nat.

Definition cvtColor (i : image) : result exn image := Ok i.
Definition blur (i : image) : result exn image := Ok i.
Definition addWeighted (a : image) (alpha : Q) (b : image) (beta gamma : Q)
  : result exn image := Ok a.

Definition image_to_string (i : image) : result exn Str.text :=
  match i with
  | 0 => Ok ("CERTIFICATE OF BIRTH No. AB1234567" : Str.text)
  | 1 => Ok []
  | _ => Raise TesseractError
  end.

Definition Canny_mean (i : image) : result exn Q := Ok (120 # 1)%Q.
Definition Laplacian_var (i : image) : result exn Q := Ok (150 # 1)%Q.

Definition extract_text : image -> result exn Str.text :=
  App.extract_text image exn cvtColor blur addWeighted image_to_string.

Definition validate : image -> result exn App.report :=
  App.validate (U := unicode) image exn cvtColor blur addWeighted
    image_to_string Canny_mean Laplacian_var.

End Stub.

(* ------------------------------------------------------------------ *)
(** * The report texts

    The two f-strings of the script: the Markdown shown on the page and the
    plain text offered for download. *)

Module Render.

Definition nl : string := String "010" EmptyString.

(** [str(n)] for an integer. *)
Definition str_int (n : Z) : string :=
  if (n <? 0)%Z then "-" ++ Fmt.decimal (- n) else Fmt.decimal n.

Definition markdown (r : App.report) : string :=
  nl ++ "    **Document Type:** " ++ App.document_type r ++ "  "
  ++ nl ++ "    **Serial Number:** " ++ App.serial_number r ++ "  "
  ++ nl ++ "    **Seal & Signature Detection:** " ++ App.seal_status r ++ "  "
  ++ nl ++ "    **Pixelation & Tampering Analysis:** "
  ++ App.pixelation_result r ++ "  "
  ++ nl
  ++ nl ++ "    **Final Confidence Score:** " ++ str_int (App.score r)
  ++ "/10  "
  ++ nl ++ "    **Recommendation:** " ++ App.verdict r ++ "  "
  ++ nl ++ "    ".

Definition report_text (r : App.report) : string :=
  nl ++ "    Birth Certificate Validation Report"
  ++ nl
  ++ nl ++ "    Document Type: " ++ App.document_type r
  ++ nl ++ "    Serial Number: " ++ App.serial_number r
  ++ nl ++ "    Seal & Signature Detection: " ++ App.seal_status r
  ++ nl ++ "    Pixelation & Tampering Analysis: " ++ App.pixelation_result r
  ++ nl
  ++ nl ++ "    Final Confidence Score: " ++ str_int (App.score r) ++ "/10"
  ++ nl ++ "    Recommendation: " ++ App.verdict r
  ++ nl ++ "    ".

(** A text with no line break in it. *)
Definition single_line (s : string) : bool :=
  Text.forallb (fun c => negb (Ascii.eqb c "010")) s.

(** A report whose five texts are single lines and whose score is not
    negative. *)
Definition printable (r : App.report) : bool :=
  (single_line (App.document_type r) && single_line (App.serial_number r)
   && single_line (App.seal_status r) && single_line (App.pixelation_result r)
   && single_line (App.verdict r) && (0 <=? App.score r)%Z)%bool.

End Render.

(* ------------------------------------------------------------------ *)
(** * Locating the OCR engine at start-up

    The [try]/[except] block that imports [pytesseract], probes the two
    known paths of the Tesseract binary and falls back on installing it.
    The environment is a record of oracles: whether each import succeeds,
    which paths exist, and what each subprocess raises. What the block does
    to the outside is the list of events it leaves. *)

Module Startup.

Inductive exn : Type :=
| ImportError
| FileNotFoundError
| CalledProcessError.

Inductive event : Type :=
| Warning (msg : string)
| Run (cmd : list string).

Record world : Type := World {
  import_pytesseract : bool;
  path_exists : string -> bool;
  run : list string -> option exn;
  reimport_pytesseract : bool
}.

Definition possible_paths : list string :=
  ["/usr/bin/tesseract"; "/usr/local/bin/tesseract"].

Definition apt_update : list string := ["sudo"; "apt-get"; "update"].

Definition apt_install : list string :=
  ["sudo"; "apt-get"; "install"; "-y"; "tesseract-ocr"; "tesseract-ocr-eng"].

(** [subprocess.run(cmd, check=True)] *)
Definition subprocess_run (w : world) (cmd : list string)
  : list event * result exn unit :=
  ([Run cmd], match run w cmd with Some e => Raise e | None => Ok tt end).

Definition install_tesseract (w : world) : list event * result exn unit :=
  let log := [Warning "Tesseract is missing. Installing now..."] in
  match subprocess_run w apt_update with
  | (l1, Raise e) => (log ++ l1, Raise e)
  | (l1, Ok _) =>
      match subprocess_run w apt_install with
      | (l2, r) => (log ++ l1 ++ l2, r)
      end
  end%list.

(** The [for] loop with its [break]: the first path that exists. *)
Fixpoint probe (w : world) (paths : list string) : option string :=
  match paths with
  | [] => None
  | path :: rest => if path_exists w path then Some path else probe w rest
  end.

(** The body of the [try]. *)
Definition locate (w : world) : result exn string :=
  if import_pytesseract w then
    match probe w possible_paths with
    | Some tesseract_path => Ok tesseract_path
    | None => Raise FileNotFoundError
    end
  else Raise ImportError.

(** The whole block: the events, and the value of [tesseract_cmd] or the
    exception that leaves the block. *)
Definition configure (w : world) : list event * result exn string :=
  match locate w with
  | Ok tesseract_path => ([], Ok tesseract_path)
  | Raise ImportError | Raise FileNotFoundError =>
      match install_tesseract w with
      | (log, Raise e) => (log, Raise e)
      | (log, Ok _) =>
          if reimport_pytesseract w then (log, Ok "/usr/bin/tesseract")
          else (log, Raise ImportError)
      end
  | Raise e => ([], Raise e)
  end.

(** A machine with Tesseract under /usr/local only. *)
Definition local_only : world :=
  World true (fun p => String.eqb p "/usr/local/bin/tesseract")
    (fun _ => None) true.

(** A machine without Tesseract on which the package update fails. *)
Definition bare_offline : world :=
  World true (fun _ => false)
    (fun cmd => match cmd with
                | [_; _; "update"] => Some CalledProcessError
                | _ => None
                end) true.

End Startup.

(* ------------------------------------------------------------------ *)
(** * Facts about strings *)

Section StringFacts.

Lemma append_assoc (a b c : string) : (a ++ b) ++ c = a ++ (b ++ c).
Proof. induction a as [|x a IH]; simpl; [reflexivity | now rewrite IH]. Qed.

Lemma append_nil_r (a : string) : a ++ "" = a.
Proof. induction a as [|x a IH]; simpl; [reflexivity | now rewrite IH]. Qed.

Lemma length_append (a b : string) :
  String.length (a ++ b) = String.length a + String.length b.
Proof. induction a as [|x a IH]; simpl; [reflexivity | now rewrite IH]. Qed.

Lemma prefix_iff (p s : string) :
  prefix p s = true <-> exists post, s = p ++ post.
Proof.
  revert s; induction p as [|c p IH]; intros s.
  - destruct s; simpl; split; eauto.
  - destruct s as [|d s]; simpl.
    + split; [discriminate | intros [post H]; discriminate].
    + destruct (ascii_dec c d) as [->|Hne].
      * rewrite IH. split; intros [post H]; exists post; congruence.
      * split; [discriminate | intros [post H]; congruence].
Qed.

(** [in] is exactly "occurs somewhere". *)
Lemma contains_iff (needle hay : string) :
  Text.contains needle hay = true
  <-> exists pre post, hay = pre ++ needle ++ post.
Proof.
  induction hay as [|c hay IH]; cbn [Text.contains].
  - rewrite orb_false_r, prefix_iff. split.
    + intros [post H]. exists "", post. exact H.
    + intros [[|x pre] [post H]]; [eauto | discriminate].
  - rewrite orb_true_iff, prefix_iff, IH. split.
    + intros [[post H] | [pre [post H]]].
      * exists "", post. exact H.
      * exists (String c pre), post. simpl. now rewrite H.
    + intros [[|x pre] [post H]].
      * left. exists post. exact H.
      * right. exists pre, post. simpl in H. congruence.
Qed.

End StringFacts.

(* ------------------------------------------------------------------ *)
(** * Facts about texts *)

Section TextFacts.

Local Open Scope list_scope.

Lemma text_prefix_iff (p s : Str.text) :
  Str.prefix p s = true <-> exists post, s = p ++ post.
Proof.
  revert s; induction p as [|c p IH]; intros s.
  - simpl. split; eauto.
  - destruct s as [|d s]; simpl.
    + split; [discriminate | intros [post H]; discriminate].
    + rewrite andb_true_iff, N.eqb_eq, IH. split.
      * intros [-> [post ->]]. now exists post.
      * intros [post H]. injection H as -> ->. eauto.
Qed.

(** [in] is exactly "occurs somewhere". *)
Lemma text_contains_iff (needle hay : Str.text) :
  Str.contains needle hay = true <-> Spec.occurs needle hay.
Proof.
  unfold Spec.occurs.
  induction hay as [|c hay IH]; cbn [Str.contains].
  - rewrite orb_false_r, text_prefix_iff. split.
    + intros [post H]. exists [], post. exact H.
    + intros [[|x pre] [post H]]; [eauto | discriminate].
  - rewrite orb_true_iff, text_prefix_iff, IH. split.
    + intros [[post H] | [pre [post H]]].
      * exists [], post. exact H.
      * exists (c :: pre), post. simpl. now rewrite H.
    + intros [[|x pre] [post H]].
      * left. exists post. exact H.
      * right. exists pre, post. simpl in H. congruence.
Qed.

(** The ASCII classes, as intervals of code points. *)
Lemma is_lower_spec c : Str.is_lower c = true <-> (97 <= c <= 122)%N.
Proof.
  unfold Str.is_lower, Str.in_range.
  change (Str.code "a") with 97%N. change (Str.code "z") with 122%N.
  rewrite andb_true_iff, !N.leb_le. tauto.
Qed.

Lemma is_upper_spec c : Str.is_upper c = true <-> (65 <= c <= 90)%N.
Proof.
  unfold Str.is_upper, Str.in_range.
  change (Str.code "A") with 65%N. change (Str.code "Z") with 90%N.
  rewrite andb_true_iff, !N.leb_le. tauto.
Qed.

Lemma is_digit_spec c : Str.is_digit c = true <-> (48 <= c <= 57)%N.
Proof.
  unfold Str.is_digit, Str.in_range.
  change (Str.code "0") with 48%N. change (Str.code "9") with 57%N.
  rewrite andb_true_iff, !N.leb_le. tauto.
Qed.

Lemma is_ascii_spec c : Str.is_ascii c = true <-> (c < 128)%N.
Proof. apply N.ltb_lt. Qed.

Lemma upper_or_digit_spec c :
  App.upper_or_digit c = true <-> (65 <= c <= 90)%N \/ (48 <= c <= 57)%N.
Proof.
  unfold App.upper_or_digit.
  now rewrite orb_true_iff, is_upper_spec, is_digit_spec.
Qed.

Lemma not_true_false (b : bool) : b <> true <-> b = false.
Proof. destruct b; split; congruence. Qed.

End TextFacts.

(** Decide the ASCII class of a character from what is known of its code,
    or split on it. *)
Ltac class_facts :=
  repeat match goal with
    | H : Str.is_lower _ = true |- _ => apply is_lower_spec in H
    | H : Str.is_upper _ = true |- _ => apply is_upper_spec in H
    | H : Str.is_digit _ = true |- _ => apply is_digit_spec in H
    | H : Str.is_ascii _ = true |- _ => apply is_ascii_spec in H
    | H : App.upper_or_digit _ = true |- _ => apply upper_or_digit_spec in H
    | H : Str.is_lower _ = false |- _ =>
        apply not_true_false in H; rewrite is_lower_spec in H
    | H : Str.is_upper _ = false |- _ =>
        apply not_true_false in H; rewrite is_upper_spec in H
    | H : Str.is_digit _ = false |- _ =>
        apply not_true_false in H; rewrite is_digit_spec in H
    | H : Str.is_ascii _ = false |- _ =>
        apply not_true_false in H; rewrite is_ascii_spec in H
    | H : App.upper_or_digit _ = false |- _ =>
        apply not_true_false in H; rewrite upper_or_digit_spec in H
    end.

Ltac class_goal :=
  lazymatch goal with
  | |- Str.is_lower _ = true => apply is_lower_spec
  | |- Str.is_upper _ = true => apply is_upper_spec
  | |- Str.is_digit _ = true => apply is_digit_spec
  | |- Str.is_ascii _ = true => apply is_ascii_spec
  | |- App.upper_or_digit _ = true => apply upper_or_digit_spec
  | |- Str.is_lower _ = false => apply not_true_false; rewrite is_lower_spec
  | |- Str.is_upper _ = false => apply not_true_false; rewrite is_upper_spec
  | |- Str.is_digit _ = false => apply not_true_false; rewrite is_digit_spec
  | |- Str.is_ascii _ = false => apply not_true_false; rewrite is_ascii_spec
  | |- App.upper_or_digit _ = false =>
      apply not_true_false; rewrite upper_or_digit_spec
  | |- _ => idtac
  end.

Ltac class_arith := class_facts; class_goal; lia.

(* ------------------------------------------------------------------ *)
(** * Case *)

(** Decide [case_variant] between two literal texts. *)
Ltac case_variant_lit :=
  cbv [Str.of_string list_ascii_of_string List.map Str.code];
  repeat lazymatch goal with
    | |- Spec.case_variant [] [] => apply Spec.cv_nil
    | |- Spec.case_variant (?c :: _) (?c :: _) => apply Spec.cv_same
    | |- Spec.case_variant (?c :: _) (?d :: _) =>
        first [ apply (Spec.cv_up c); [reflexivity|]
              | apply (Spec.cv_down d); [reflexivity|] ]
    end.

Section CaseFacts.
Context {U : Unicode}.

Local Open Scope list_scope.

Lemma upper_append (a b : Str.text) :
  Str.upper (a ++ b) = Str.upper a ++ Str.upper b.
Proof. apply List.flat_map_app. Qed.

Lemma upper_char_lower c :
  Str.is_lower c = true -> Str.upper_char c = [(c - 32)%N].
Proof. unfold Str.upper_char. now intros ->. Qed.

Lemma upper_char_plain c :
  Str.is_ascii c = true -> Str.is_lower c = false -> Str.upper_char c = [c].
Proof. unfold Str.upper_char. now intros -> ->. Qed.

Lemma upper_char_raised c :
  Str.is_lower c = true -> Str.upper_char (c - 32)%N = [(c - 32)%N].
Proof. intros H. apply upper_char_plain; class_arith. Qed.

(** Case variants have the same uppercase. *)
Lemma case_variant_upper s t :
  Spec.case_variant s t -> Str.upper s = Str.upper t.
Proof.
  induction 1 as [|c s t _ IH|c s t Hc _ IH|c s t Hc _ IH];
    unfold Str.upper in *; simpl;
    rewrite ?(upper_char_lower _ Hc), ?(upper_char_raised _ Hc);
    congruence.
Qed.

Lemma lowercase_case_variant s : Spec.case_variant s (Spec.lowercase s).
Proof.
  induction s as [|c s IH]; [constructor|].
  unfold Spec.lowercase. simpl. fold (Spec.lowercase s).
  destruct (Str.is_upper c) eqn:Hc.
  - replace c with ((c + 32) - 32)%N at 1 by lia.
    apply Spec.cv_down; [class_arith | exact IH].
  - now apply Spec.cv_same.
Qed.

Lemma case_variant_plain mid phrase :
  Spec.plain phrase = true -> Spec.case_variant mid phrase ->
  Str.upper mid = phrase.
Proof.
  intros Hp Hcv. induction Hcv as [|c s t _ IH|c s t Hc _ IH|c s t Hc _ IH];
    [reflexivity| | |];
    cbn [Spec.plain List.forallb] in Hp; apply andb_true_iff in Hp;
    destruct Hp as [Hc' Hp]; apply andb_true_iff in Hc';
    destruct Hc' as [Ha Hl]; apply negb_true_iff in Hl;
    unfold Str.upper in *; cbn [List.flat_map].
  - rewrite (upper_char_plain _ Ha Hl), (IH Hp). reflexivity.
  - rewrite (upper_char_lower _ Hc), (IH Hp). reflexivity.
  - congruence.
Qed.

(** On ASCII text [upper] works character by character. *)
Lemma upper_ascii (t : Str.text) :
  Spec.ascii_text t = true ->
  Str.upper t
  = List.map (fun c => if Str.is_lower c then (c - 32)%N else c) t.
Proof.
  induction t as [|c t IH]; [reflexivity|].
  unfold Spec.ascii_text. cbn [List.forallb]. rewrite andb_true_iff.
  intros [Hc Ht]. unfold Str.upper in *. cbn [List.flat_map List.map].
  rewrite (IH Ht). unfold Str.upper_char. rewrite Hc.
  now destruct (Str.is_lower c).
Qed.

Lemma map_case_variant (s : Str.text) :
  Spec.case_variant s
    (List.map (fun c => if Str.is_lower c then (c - 32)%N else c) s).
Proof.
  induction s as [|c s IH]; [constructor|]. cbn [List.map].
  destruct (Str.is_lower c) eqn:Hc.
  - now apply Spec.cv_up.
  - now apply Spec.cv_same.
Qed.

(** Every case variant of an uppercase phrase is found. *)
Lemma occurs_ci_found (phrase text : Str.text) :
  Spec.plain phrase = true ->
  Spec.occurs_ci phrase text -> Spec.found phrase text.
Proof.
  intros Hp (pre & mid & post & -> & Hcv).
  exists (Str.upper pre), (Str.upper post).
  now rewrite !upper_append, (case_variant_plain _ _ Hp Hcv).
Qed.

(** In an ASCII text nothing else is. *)
Lemma found_occurs_ci (phrase text : Str.text) :
  Spec.ascii_text text = true ->
  Spec.found phrase text -> Spec.occurs_ci phrase text.
Proof.
  intros Ha (pre' & post' & H). rewrite (upper_ascii _ Ha) in H.
  apply List.map_eq_app in H. destruct H as (pre & rest & -> & _ & H).
  apply List.map_eq_app in H. destruct H as (mid & post & -> & Hm & _).
  exists pre, mid, post. split; [reflexivity|].
  rewrite <- Hm. apply map_case_variant.
Qed.

Lemma phrases_plain (p : Str.text) : In p Spec.phrases -> Spec.plain p = true.
Proof.
  intros [<- | [<- | [<- | []]]]; reflexivity.
Qed.

(** The test the classifier makes. *)
Lemma phrase_test (phrase text : Str.text) :
  if Str.contains phrase (Str.upper text)
  then Spec.found phrase text
  else ~ Spec.found phrase text.
Proof.
  pose proof (text_contains_iff phrase (Str.upper text)) as H.
  destruct (Str.contains phrase (Str.upper text)).
  - now apply H.
  - intros Ho. apply H in Ho. discriminate.
Qed.

End CaseFacts.

(* ------------------------------------------------------------------ *)
(** * Document classification *)

Section Classification.
Context {U : Unicode}.

Local Open Scope list_scope.

Lemma detect_document_type_label (text : Str.text) :
  exists d, App.detect_document_type text = Spec.label_text d.
Proof.
  unfold App.detect_document_type.
  destruct (Str.contains "CERTIFICATE OF BIRTH" _);
    [now exists Spec.CertificateOfBirth|].
  destruct (Str.contains "CERTIFIED TRANSCRIPT OF BIRTH" _);
    [now exists Spec.CertifiedBirthTranscript|].
  destruct (Str.contains "CERTIFICATE OF LIVE BIRTH" _);
    [now exists Spec.CertificateOfLiveBirth | now exists Spec.Unknown].
Qed.

(** C5. The classifier looks for the three phrases without regard to case,
    in the order "CERTIFICATE OF BIRTH", "CERTIFIED TRANSCRIPT OF BIRTH",
    "CERTIFICATE OF LIVE BIRTH"; it answers with the label of the first one
    that it finds and with Unknown when it finds none, and its answer is
    always one of the four labels. It disregards case by putting the text
    in uppercase: every case variant of a phrase is found, and in an ASCII
    text nothing else is. *)
Theorem detect_document_type_priority (text : Str.text) :
  (Spec.found "CERTIFICATE OF BIRTH" text ->
   App.detect_document_type text = Spec.label_text Spec.CertificateOfBirth)
  /\ (~ Spec.found "CERTIFICATE OF BIRTH" text ->
      Spec.found "CERTIFIED TRANSCRIPT OF BIRTH" text ->
      App.detect_document_type text
      = Spec.label_text Spec.CertifiedBirthTranscript)
  /\ (~ Spec.found "CERTIFICATE OF BIRTH" text ->
      ~ Spec.found "CERTIFIED TRANSCRIPT OF BIRTH" text ->
      Spec.found "CERTIFICATE OF LIVE BIRTH" text ->
      App.detect_document_type text
      = Spec.label_text Spec.CertificateOfLiveBirth)
  /\ (~ Spec.found "CERTIFICATE OF BIRTH" text ->
      ~ Spec.found "CERTIFIED TRANSCRIPT OF BIRTH" text ->
      ~ Spec.found "CERTIFICATE OF LIVE BIRTH" text ->
      App.detect_document_type text = Spec.label_text Spec.Unknown)
  /\ (exists d, App.detect_document_type text = Spec.label_text d)
  /\ (forall phrase, In phrase Spec.phrases ->
        Spec.occurs_ci phrase text -> Spec.found phrase text)
  /\ (Spec.ascii_text text = true ->
      forall phrase, Spec.found phrase text -> Spec.occurs_ci phrase text).
Proof.
  pose proof (phrase_test "CERTIFICATE OF BIRTH" text) as H1.
  pose proof (phrase_test "CERTIFIED TRANSCRIPT OF BIRTH" text) as H2.
  pose proof (phrase_test "CERTIFICATE OF LIVE BIRTH" text) as H3.
  assert (Hci : forall phrase, In phrase Spec.phrases ->
                  Spec.occurs_ci phrase text -> Spec.found phrase text)
    by (intros p Hp; apply occurs_ci_found, phrases_plain, Hp).
  assert (Hascii : Spec.ascii_text text = true ->
            forall phrase, Spec.found phrase text ->
                           Spec.occurs_ci phrase text)
    by (intros Ha p; now apply found_occurs_ci).
  unfold App.detect_document_type.
  destruct (Str.contains "CERTIFICATE OF BIRTH" (Str.upper text));
    [|destruct (Str.contains "CERTIFIED TRANSCRIPT OF BIRTH"
                 (Str.upper text));
      [|destruct (Str.contains "CERTIFICATE OF LIVE BIRTH"
                   (Str.upper text))]];
    (split; [|split; [|split; [|split; [|split; [|split]]]]]);
    try assumption;
    try (intros; first [reflexivity | tauto]).
  - now exists Spec.CertificateOfBirth.
  - now exists Spec.CertifiedBirthTranscript.
  - now exists Spec.CertificateOfLiveBirth.
  - now exists Spec.Unknown.
Qed.

End Classification.

(** The priority at work: a text that holds the first and the third phrase,
    the third one earlier and in mixed case. *)
Lemma detect_document_type_priority_witness :
  App.detect_document_type (U := Stub.unicode)
    "Certificate of Live Birth; see also the certificate of birth"
  = "Certificate of Birth".
Proof.
  apply (proj1 (detect_document_type_priority (U := Stub.unicode) _)).
  apply (proj1 (proj2 (proj2 (proj2 (proj2 (proj2
           (detect_document_type_priority (U := Stub.unicode) _))))))).
  - left. reflexivity.
  - exists ("Certificate of Live Birth; see also the " : Str.text),
      ("certificate of birth" : Str.text), [].
    split; [reflexivity | case_variant_lit].
Defined.

(* ------------------------------------------------------------------ *)
(** * The serial pattern *)

Section SerialPattern.
Context {U : Unicode}.

Local Open Scope list_scope.

Lemma text_app_assoc (a b c : Str.text) : (a ++ b) ++ c = a ++ (b ++ c).
Proof. symmetry. apply List.app_assoc. Qed.

Lemma last_append_cons (pre : Str.text) c s :
  Str.last (pre ++ c :: s) = Str.last (c :: s).
Proof.
  induction pre as [|x pre IH]; [reflexivity|].
  change ((x :: pre) ++ c :: s) with (x :: (pre ++ c :: s)).
  cbn [Str.last]. rewrite IH.
  destruct (pre ++ c :: s) eqn:E; [|reflexivity].
  destruct pre; discriminate.
Qed.

Lemma last_cons c (s : Str.text) : Str.last (c :: s) <> None.
Proof.
  revert c; induction s as [|y s IH]; intros c; [discriminate|].
  change (Str.last (c :: y :: s)) with (Str.last (y :: s)).
  apply IH.
Qed.

Lemma last_snoc (pre : Str.text) c : Str.last (pre ++ [c]) = Some c.
Proof. now rewrite last_append_cons. Qed.

Lemma snoc_append (pre : Str.text) c s : (pre ++ [c]) ++ s = pre ++ c :: s.
Proof. now rewrite text_app_assoc. Qed.

Lemma forallb_last cls (s : Str.text) c :
  List.forallb cls s = true -> Str.last s = Some c -> cls c = true.
Proof.
  induction s as [|x s IH]; [discriminate|].
  cbn [List.forallb]. rewrite andb_true_iff. intros [Hx Hs] Hl.
  destruct s as [|y s]; [now injection Hl as <-|].
  now apply IH.
Qed.

(** The characters of [[A-Z0-9]] are word characters, whatever the
    database. *)
Lemma upper_or_digit_word c :
  App.upper_or_digit c = true -> Re.is_word c = true.
Proof.
  intros H. unfold Re.is_word, Str.is_alnum.
  assert (Str.is_ascii c = true) as -> by class_arith.
  unfold App.upper_or_digit in H. apply orb_true_iff in H.
  destruct H as [-> | ->]; now rewrite ?orb_true_r.
Qed.

Lemma word_opt_class (c : option N) :
  Re.word_opt c = false ->
  match c with Some x => App.upper_or_digit x = false | None => True end.
Proof.
  destruct c as [x|]; [|trivial]. simpl. intros H.
  destruct (App.upper_or_digit x) eqn:E; [|reflexivity].
  apply upper_or_digit_word in E. congruence.
Qed.

(** What the continuation of the repetition, the closing [\b], yields. *)
Lemma closing_boundary prev s m :
  Re.match_here [Re.WordBoundary] prev s = Some m <->
  m = [] /\ Re.at_boundary prev s = true.
Proof.
  cbn [Re.match_here]. destruct (Re.at_boundary prev s); split.
  - intros [= <-]. auto.
  - now intros [-> _].
  - discriminate.
  - intros [_ H]. discriminate.
Qed.

(** A successful greedy repetition consumed between [lo] and [hi] characters
    of the class, and the rest of the pattern matched after them. *)
Lemma greedy_sound cls hi : forall lo pre0 s m,
  Re.greedy cls (Re.match_here [Re.WordBoundary]) lo hi (Str.last pre0) s
  = Some m ->
  exists post,
    s = m ++ post /\ List.forallb cls m = true
    /\ lo <= List.length m <= hi
    /\ Re.at_boundary (Str.last (pre0 ++ m)) post = true.
Proof.
  assert (Hstop : forall hi lo pre0 s m,
    match lo with
    | O => Re.match_here [Re.WordBoundary] (Str.last pre0) s
    | S _ => None
    end = Some m ->
    exists post,
      s = m ++ post /\ List.forallb cls m = true
      /\ lo <= List.length m <= hi
      /\ Re.at_boundary (Str.last (pre0 ++ m)) post = true).
  { intros hi' [|lo] pre0 s m H; [|discriminate].
    apply closing_boundary in H. destruct H as [-> H].
    exists s. rewrite List.app_nil_r. simpl. repeat split; auto; lia. }
  induction hi as [|hi IH]; intros lo pre0 s m H.
  - cbn [Re.greedy] in H. destruct s; now apply (Hstop 0).
  - cbn [Re.greedy] in H.
    destruct s as [|c s]; [now apply (Hstop (S hi)) in H|].
    destruct (cls c) eqn:Hc;
      [|apply (Hstop (S hi)) in H; destruct H as (post & ? & ? & ? & ?);
        exists post; repeat split; auto; lia].
    rewrite <- (last_snoc pre0 c) in H.
    destruct (Re.greedy cls _ (Nat.pred lo) hi _ s) as [m'|] eqn:Hg.
    + injection H as <-.
      apply IH in Hg. destruct Hg as (post & -> & Hall & Hlen & Hb).
      exists post. rewrite snoc_append in Hb.
      cbn [List.forallb List.length]. rewrite Hc, Hall.
      repeat split; auto; lia.
    + apply (Hstop (S hi)) in H. destruct H as (post & ? & ? & ? & ?).
      exists post. repeat split; auto; lia.
Qed.

(** Conversely, a run of the class that cannot be extended and after which
    the rest of the pattern matches is what the repetition consumes. *)
Lemma greedy_complete cls tok : forall lo hi pre0 post,
  List.forallb cls tok = true ->
  lo <= List.length tok <= hi ->
  match Str.head post with Some c => cls c = false | None => True end ->
  Re.at_boundary (Str.last (pre0 ++ tok)) post = true ->
  Re.greedy cls (Re.match_here [Re.WordBoundary]) lo hi (Str.last pre0)
    (tok ++ post) = Some tok.
Proof.
  induction tok as [|c tok IH]; intros lo hi pre0 post Hall Hlen Hpost Hb.
  - rewrite List.app_nil_r in Hb. simpl in Hlen.
    assert (lo = 0) as -> by lia.
    assert (Hk : Re.match_here [Re.WordBoundary] (Str.last pre0) post
                 = Some []) by now apply closing_boundary.
    destruct hi as [|hi]; cbn [Re.greedy List.app].
    + now destruct post.
    + destruct post as [|d post]; [exact Hk|].
      simpl in Hpost. now rewrite Hpost.
  - cbn [List.forallb] in Hall. apply andb_true_iff in Hall.
    destruct Hall as [Hc Hall]. simpl in Hlen.
    destruct hi as [|hi]; [lia|].
    cbn [Re.greedy List.app]. rewrite Hc.
    rewrite <- (last_snoc pre0 c).
    rewrite IH; auto; [lia | now rewrite snoc_append].
Qed.

(** The pattern matches at a position exactly when a serial number starts
    there, and then the match is that serial number. *)
Lemma match_here_serial (pre0 s m : Str.text) :
  Re.match_here App.serial_pattern (Str.last pre0) s = Some m <->
  exists post, s = m ++ post /\ Spec.serial_at pre0 m post.
Proof.
  unfold App.serial_pattern, Spec.serial_at, Spec.well_formed.
  cbn [Re.match_here]. split.
  - destruct (Re.at_boundary (Str.last pre0) s) eqn:Hb0; [|discriminate].
    intros H. apply greedy_sound in H.
    destruct H as (post & -> & Hall & Hlen & Hb).
    exists post. split; [reflexivity|].
    destruct m as [|c m]; [simpl in Hlen; lia|].
    assert (Hc : Re.is_word c = true).
    { apply upper_or_digit_word. cbn [List.forallb] in Hall.
      now apply andb_true_iff in Hall. }
    unfold Re.at_boundary in Hb0. simpl in Hb0. rewrite Hc in Hb0.
    rewrite last_append_cons in Hb.
    destruct (Str.last (c :: m)) as [z|] eqn:Hz;
      [|now destruct (last_cons c m)].
    assert (Hw : Re.is_word z = true)
      by (apply upper_or_digit_word; eapply forallb_last; eauto).
    unfold Re.at_boundary in Hb. simpl in Hb. rewrite Hw in Hb.
    repeat split; auto; try apply Hlen.
    + now destruct (Re.word_opt (Str.last pre0)).
    + now destruct (Re.word_opt (Str.head post)).
  - intros (post & -> & (Hlen & Hall) & Hpre & Hpost).
    destruct m as [|c m]; [simpl in Hlen; lia|].
    assert (Hc : Re.is_word c = true).
    { apply upper_or_digit_word. cbn [List.forallb] in Hall.
      now apply andb_true_iff in Hall. }
    unfold Re.at_boundary at 1. simpl Str.head. simpl Re.word_opt at 2.
    rewrite Hpre, Hc. cbn [xorb].
    apply greedy_complete; auto.
    + now apply word_opt_class.
    + rewrite last_append_cons.
      destruct (Str.last (c :: m)) as [z|] eqn:Hz;
        [|now destruct (last_cons c m)].
      assert (Hw : Re.is_word z = true)
        by (apply upper_or_digit_word; eapply forallb_last; eauto).
      unfold Re.at_boundary. simpl. now rewrite Hw, Hpost.
Qed.

(** [re.search] from a position on: the leftmost serial number at or after
    it, or nothing when there is none. *)
Lemma search_from_serial (s : Str.text) : forall pre0,
  match Re.search_from App.serial_pattern (Str.last pre0) s with
  | Some m =>
      exists pre post,
        s = pre ++ m ++ post /\ Spec.serial_at (pre0 ++ pre) m post
        /\ forall pre' m' post',
             s = pre' ++ m' ++ post' ->
             Spec.serial_at (pre0 ++ pre') m' post' ->
             List.length pre <= List.length pre'
  | None =>
      forall pre' m' post',
        s = pre' ++ m' ++ post' -> ~ Spec.serial_at (pre0 ++ pre') m' post'
  end.
Proof.
  induction s as [|c s IH]; intros pre0; cbn [Re.search_from];
    destruct (Re.match_here App.serial_pattern (Str.last pre0) _)
      as [m|] eqn:Hm.
  1, 3: apply match_here_serial in Hm; destruct Hm as (post & Hs & Hat);
    exists [], post; rewrite List.app_nil_r;
    (split; [|split]); auto; intros; simpl; lia.
  - intros pre' m' post' H [[Hlen _] _].
    destruct pre'; [|discriminate]. destruct m'; [|discriminate].
    simpl in Hlen. lia.
  - assert (Hnot : forall m' post',
              c :: s = m' ++ post' -> ~ Spec.serial_at pre0 m' post').
    { intros m' post' H Hat.
      assert (Re.match_here App.serial_pattern (Str.last pre0) (c :: s)
              = Some m') by (apply match_here_serial; eauto).
      congruence. }
    specialize (IH (pre0 ++ [c])). rewrite last_snoc in IH.
    destruct (Re.search_from App.serial_pattern (Some c) s) as [m|].
    + destruct IH as (pre & post & -> & Hat & Hleft).
      exists (c :: pre), post. rewrite snoc_append in Hat.
      (split; [|split]); auto.
      intros [|x pre'] m' post' H Hat';
        [rewrite List.app_nil_r in Hat'; destruct (Hnot m' post' H Hat')|].
      simpl in H. injection H as <- H.
      rewrite <- snoc_append in Hat'.
      specialize (Hleft _ _ _ H Hat'). simpl. lia.
    + intros [|x pre'] m' post' H Hat.
      * rewrite List.app_nil_r in Hat. exact (Hnot m' post' H Hat).
      * simpl in H. injection H as <- H.
        rewrite <- snoc_append in Hat. exact (IH _ _ _ H Hat).
Qed.

(** A serial number read as a text is the serial number. *)
Lemma of_to_string (tok : Str.text) :
  List.forallb App.upper_or_digit tok = true ->
  Str.of_string (Str.to_string tok) = tok.
Proof.
  induction tok as [|c tok IH]; [reflexivity|].
  cbn [List.forallb]. rewrite andb_true_iff. intros [Hc Ht].
  unfold Str.of_string, Str.to_string in *.
  cbn [List.map string_of_list_ascii list_ascii_of_string].
  rewrite (IH Ht). unfold Str.code at 1.
  rewrite N_ascii_embedding by class_arith. reflexivity.
Qed.

(** What [check_serial_number] returns, in full. *)
Lemma check_serial_number_cases (text : Str.text) :
  (exists pre tok post,
      text = pre ++ tok ++ post /\ Spec.serial_at pre tok post
      /\ (forall pre' tok' post',
            text = pre' ++ tok' ++ post' ->
            Spec.serial_at pre' tok' post' ->
            List.length pre <= List.length pre')
      /\ App.check_serial_number text = Str.to_string tok
      /\ Str.of_string (App.check_serial_number text) = tok)
  \/ ((forall pre tok post,
         text = pre ++ tok ++ post -> ~ Spec.serial_at pre tok post)
      /\ App.check_serial_number text = "Not Found").
Proof.
  unfold App.check_serial_number, Re.search.
  pose proof (search_from_serial text []) as H.
  cbn [Str.last List.app] in H.
  destruct (Re.search_from App.serial_pattern None text) as [m|].
  - left. destruct H as (pre & post & Ht & Hat & Hleft).
    exists pre, m, post. repeat split; auto; try apply Hat.
    apply of_to_string, Hat.
  - right. auto.
Qed.

Lemma well_formed_not_marker (tok : string) :
  Spec.well_formed tok -> tok <> "Not Found".
Proof. intros [_ H] ->. discriminate. Qed.

(** C6. [check_serial_number] returns the leftmost run of 7 to 12 uppercase
    letters and digits that has no word character (letter, digit or
    underscore) next to it, and "Not Found" when the text has no such run;
    what it returns is "Not Found" or 7 to 12 characters of uppercase
    letters and digits. *)
Theorem check_serial_number_leftmost (text : Str.text) :
  ((exists pre tok post,
       text = pre ++ tok ++ post /\ Spec.serial_at pre tok post
       /\ (forall pre' tok' post',
             text = pre' ++ tok' ++ post' ->
             Spec.serial_at pre' tok' post' ->
             List.length pre <= List.length pre')
       /\ App.check_serial_number text = Str.to_string tok
       /\ Str.of_string (App.check_serial_number text) = tok)
   \/ ((forall pre tok post,
          text = pre ++ tok ++ post -> ~ Spec.serial_at pre tok post)
       /\ App.check_serial_number text = "Not Found"))
  /\ (App.check_serial_number text = "Not Found"
      \/ Spec.well_formed (App.check_serial_number text)).
Proof.
  split; [apply check_serial_number_cases|].
  destruct (check_serial_number_cases text)
    as [(pre & tok & post & _ & [Hwf _] & _ & _ & Hres) | [_ ->]]; auto.
  right. now rewrite Hres.
Qed.

(** The serial number's points in the score. *)
Lemma serial_points_added (serial dt ss pr : string) :
  serial <> "Not Found" ->
  App.confidence_score dt serial ss pr
  = (2 + App.confidence_score dt "Not Found" ss pr)%Z.
Proof.
  intros H. apply String.eqb_neq in H.
  unfold App.confidence_score. cbv zeta. rewrite H, String.eqb_refl.
  cbn [negb].
  destruct (negb (dt =? "Unknown Document Type")),
    (Text.contains "Detected" ss), (Text.contains "Low Pixelation" pr),
    (Text.contains "Moderate Pixelation" pr); lia.
Qed.

(** The serial number is found as soon as there is one somewhere. *)
Lemma serial_found (text pre tok post : Str.text) :
  text = pre ++ tok ++ post ->
  Spec.serial_at pre tok post ->
  Spec.well_formed (App.check_serial_number text).
Proof.
  intros Htext Hat.
  destruct (check_serial_number_cases text)
    as [(p & t & q & _ & [Hwf _] & _ & _ & Hres) | [Hnone _]];
    [now rewrite Hres | destruct (Hnone _ _ _ Htext Hat)].
Qed.

(** C9. A text that holds "CERTIFIED TRANSCRIPT OF BIRTH", or one of the
    other two phrases at its start or right after a character that is not a
    word character, has a serial number: [check_serial_number] returns a
    token and the score gets the serial number's two points. *)
Theorem phrase_gives_serial (text pre post : Str.text) :
  text = pre ++ Str.of_string "CERTIFIED TRANSCRIPT OF BIRTH" ++ post
  \/ (Re.word_opt (Str.last pre) = false
      /\ (text = pre ++ Str.of_string "CERTIFICATE OF BIRTH" ++ post
          \/ text = pre ++ Str.of_string "CERTIFICATE OF LIVE BIRTH" ++ post))
  ->
  Spec.well_formed (App.check_serial_number text)
  /\ App.check_serial_number text <> "Not Found"
  /\ forall dt ss pr,
       App.confidence_score dt (App.check_serial_number text) ss pr
       = (2 + App.confidence_score dt "Not Found" ss pr)%Z.
Proof.
  intros H.
  assert (Hocc : exists pre1 tok post1,
             text = pre1 ++ tok ++ post1 /\ Spec.serial_at pre1 tok post1).
  { destruct H as [-> | [Hpre [-> | ->]]].
    - exists (pre ++ Str.of_string "CERTIFIED "),
        (Str.of_string "TRANSCRIPT"), (Str.of_string " OF BIRTH" ++ post).
      split; [now rewrite text_app_assoc|].
      unfold Spec.serial_at, Spec.well_formed.
      split; [split; [simpl; lia | reflexivity]|].
      split; [|reflexivity].
      change (Str.of_string "CERTIFIED ")
        with (Str.of_string "CERTIFIED" ++ [32%N]).
      rewrite List.app_assoc, last_snoc. reflexivity.
    - exists pre, (Str.of_string "CERTIFICATE"),
        (Str.of_string " OF BIRTH" ++ post).
      split; [reflexivity|].
      unfold Spec.serial_at, Spec.well_formed.
      split; [split; [simpl; lia | reflexivity]|].
      split; [exact Hpre | reflexivity].
    - exists pre, (Str.of_string "CERTIFICATE"),
        (Str.of_string " OF LIVE BIRTH" ++ post).
      split; [reflexivity|].
      unfold Spec.serial_at, Spec.well_formed.
      split; [split; [simpl; lia | reflexivity]|].
      split; [exact Hpre | reflexivity]. }
  destruct Hocc as (pre1 & tok1 & post1 & Htext & Hat).
  pose proof (serial_found _ _ _ _ Htext Hat) as Hwf.
  pose proof (well_formed_not_marker _ Hwf) as Hne.
  repeat split; try apply Hwf; auto.
  intros. now apply serial_points_added.
Qed.

End SerialPattern.

Lemma phrase_gives_serial_witness :
  Spec.well_formed
    (App.check_serial_number (U := Stub.unicode)
       "State of X - CERTIFICATE OF LIVE BIRTH - 1990")
  /\ App.check_serial_number (U := Stub.unicode)
       "State of X - CERTIFICATE OF LIVE BIRTH - 1990"
     <> "Not Found"
  /\ forall dt ss pr,
       App.confidence_score dt
         (App.check_serial_number (U := Stub.unicode)
            "State of X - CERTIFICATE OF LIVE BIRTH - 1990") ss pr
       = (2 + App.confidence_score dt "Not Found" ss pr)%Z.
Proof.
  apply (phrase_gives_serial (U := Stub.unicode) _
           (Str.of_string "State of X - ") (Str.of_string " - 1990")).
  right. split; [reflexivity|]. right. reflexivity.
Defined.

(** An underscore is a word character: the run below has no letter or digit
    next to it, and it is not returned. *)
Lemma check_serial_number_underscore :
  Spec.run_at (U := Stub.unicode) "_" "ABCDEFG" ""
  /\ App.check_serial_number (U := Stub.unicode) "_ABCDEFG" = "Not Found".
Proof.
  repeat split; simpl; try lia; reflexivity.
Qed.

(** Two more uppercase characters in front of the phrase, and the text has
    the phrase and no serial number. *)
Lemma phrase_without_serial :
  Spec.occurs "CERTIFICATE OF BIRTH" "XXCERTIFICATE OF BIRTH"
  /\ App.detect_document_type (U := Stub.unicode) "XXCERTIFICATE OF BIRTH"
     = "Certificate of Birth"
  /\ App.check_serial_number (U := Stub.unicode) "XXCERTIFICATE OF BIRTH"
     = "Not Found".
Proof.
  split; [now exists (Str.of_string "XX"), (@nil N)|]. split; reflexivity.
Qed.

(* ------------------------------------------------------------------ *)
(** * Numbers *)

Section Numbers.

Lemma ltb_lt x y : Fmt.ltb x y = true <-> (x < y)%Q.
Proof.
  unfold Fmt.ltb. rewrite negb_true_iff. split; intros H.
  - apply Qnot_le_lt. intros Hle. apply Qle_bool_iff in Hle. congruence.
  - destruct (Qle_bool y x) eqn:E; [|reflexivity].
    apply Qle_bool_iff in E. destruct (Qlt_not_le _ _ H E).
Qed.

Lemma ltb_ge x y : Fmt.ltb x y = false <-> (y <= x)%Q.
Proof.
  unfold Fmt.ltb. rewrite negb_false_iff. apply Qle_bool_iff.
Qed.

Lemma leb_le x y : Fmt.leb x y = true <-> (x <= y)%Q.
Proof. apply Qle_bool_iff. Qed.




Lemma forallb_append p (a b : string) :
  Text.forallb p (a ++ b) = (Text.forallb p a && Text.forallb p b)%bool.
Proof.
  induction a as [|x a IH]; simpl; [reflexivity|].
  now rewrite IH, andb_assoc.
Qed.

Lemma forallb_impl (p q : ascii -> bool) (s : string) :
  (forall c, p c = true -> q c = true) ->
  Text.forallb p s = true -> Text.forallb q s = true.
Proof.
  intros Hpq. induction s as [|x s IH]; simpl; [reflexivity|].
  rewrite !andb_true_iff. intros [Hx Hs]. auto.
Qed.

Lemma to_uint_nonnil (n : N) : N.to_uint n <> Decimal.Nil.
Proof.
  destruct n as [|p]; [discriminate|].
  apply DecimalPos.Unsigned.to_uint_nonnil.
Qed.

Lemma string_of_uint_digits (d : Decimal.uint) :
  Text.forallb Text.is_digit (NilEmpty.string_of_uint d) = true.
Proof. induction d; simpl; auto. Qed.

Lemma decimal_digits n : Text.forallb Text.is_digit (Fmt.decimal n) = true.
Proof.
  unfold Fmt.decimal, NilZero.string_of_uint.
  destruct (N.to_uint (Z.to_N n)); try apply string_of_uint_digits.
  reflexivity.
Qed.

(** Printing in decimal and reading back gives the number. *)
Lemma parse_decimal_decimal n :
  (0 <= n)%Z -> Spec.parse_decimal (Fmt.decimal n) = Some n.
Proof.
  intros H. unfold Spec.parse_decimal, Fmt.decimal.
  rewrite NilZero.usu by apply to_uint_nonnil.
  simpl. rewrite DecimalN.Unsigned.of_to. f_equal. lia.
Qed.

Lemma below_100 (P : Z -> bool) :
  List.forallb P (List.map Z.of_nat (List.seq 0 100)) = true ->
  forall n, (0 <= n < 100)%Z -> P n = true.
Proof.
  intros H n Hn. rewrite List.forallb_forall in H. apply H.
  apply List.in_map_iff. exists (Z.to_nat n). split; [lia|].
  apply List.in_seq. lia.
Qed.

(** The two digits after the point. *)
Lemma two_digits_spec n :
  (0 <= n < 100)%Z ->
  String.length (Fmt.two_digits n) = 2
  /\ Text.forallb Text.is_digit (Fmt.two_digits n) = true
  /\ Spec.parse_decimal (Fmt.two_digits n) = Some n.
Proof.
  intros Hn.
  pose (P := fun n =>
    ((String.length (Fmt.two_digits n) =? 2)%nat
     && Text.forallb Text.is_digit (Fmt.two_digits n)
     && match Spec.parse_decimal (Fmt.two_digits n) with
        | Some m => (m =? n)%Z
        | None => false
        end)%bool).
  assert (H : P n = true) by (apply below_100; [vm_compute; reflexivity|lia]).
  unfold P in H. rewrite !andb_true_iff in H. destruct H as [[H1 H2] H3].
  apply Nat.eqb_eq in H1.
  destruct (Spec.parse_decimal (Fmt.two_digits n)); [|discriminate].
  apply Z.eqb_eq in H3. subst. auto.
Qed.


Lemma format_2f_chars v :
  Text.forallb Spec.numeric_char (Fmt.format_2f v) = true.
Proof.
  assert (Hd : forall s, Text.forallb Text.is_digit s = true ->
                         Text.forallb Spec.numeric_char s = true).
  { intros s. apply forallb_impl. intros c Hc. unfold Spec.numeric_char.
    now rewrite Hc. }
  assert (Hm : (0 <= Fmt.hundredths v mod 100 < 100)%Z)
    by (apply Z.mod_pos_bound; lia).
  unfold Fmt.format_2f. cbv zeta.
  rewrite !forallb_append, !andb_true_iff. repeat split.
  - now destruct (Fmt.ltb v 0).
  - apply Hd, decimal_digits.
  - apply Hd, two_digits_spec, Hm.
Qed.

End Numbers.

(* ------------------------------------------------------------------ *)
(** * The tests the scorer makes on the verdict texts *)

Section VerdictTexts.

Lemma contains_absent c (needle s : string) :
  Text.forallb (fun x => negb (Ascii.eqb c x)) s = true ->
  Text.contains (String c needle) s = false.
Proof.
  induction s as [|x s IH]; [reflexivity|].
  cbn [Text.forallb Text.contains prefix]. rewrite andb_true_iff.
  intros [Hx Hs]. rewrite (IH Hs), orb_false_r.
  destruct (ascii_dec c x) as [->|]; [|reflexivity].
  now rewrite Ascii.eqb_refl in Hx.
Qed.

Lemma numeric_absent c (needle s : string) :
  Spec.numeric_char c = false ->
  Text.forallb Spec.numeric_char s = true ->
  Text.forallb (fun x => negb (Ascii.eqb c x)) s = true.
Proof.
  intros Hc. apply forallb_impl. intros x Hx.
  destruct (Ascii.eqb_spec c x) as [->|]; [congruence | reflexivity].
Qed.

(** The branch taken by [pixelation_analysis] is the verdict of the
    thresholds, and the message ends with the variance in [.2f]. *)
Lemma pixelation_result_of_verdict v :
  App.pixelation_result_of v
  = Spec.pixelation_text (Spec.pixelation_verdict v) ++ Fmt.format_2f v.
Proof.
  unfold App.pixelation_result_of, Spec.pixelation_verdict.
  destruct (Qlt_le_dec v 50) as [H50|H50].
  - apply ltb_lt in H50. now rewrite H50.
  - pose proof H50 as H50'. apply ltb_ge in H50. apply leb_le in H50'.
    rewrite H50, H50'. cbn [andb].
    destruct (Qlt_le_dec v 100) as [H100|H100].
    + apply ltb_lt in H100. now rewrite H100.
    + apply ltb_ge in H100. now rewrite H100.
Qed.

Lemma verdict_thresholds v :
  (Spec.pixelation_verdict v = Spec.HighPixelation <-> (v < 50)%Q)
  /\ (Spec.pixelation_verdict v = Spec.ModeratePixelation
      <-> (50 <= v)%Q /\ (v < 100)%Q)
  /\ (Spec.pixelation_verdict v = Spec.LowPixelation <-> (100 <= v)%Q).
Proof.
  unfold Spec.pixelation_verdict.
  destruct (Qlt_le_dec v 50) as [H50|H50];
    [|destruct (Qlt_le_dec v 100) as [H100|H100]];
    repeat split; intros; try discriminate; try reflexivity; try lra.
Qed.

(** What the two substring tests of the scorer find in the message. *)
Lemma pixelation_tests v :
  Text.contains "Low Pixelation" (App.pixelation_result_of v)
  = match Spec.pixelation_verdict v with
    | Spec.LowPixelation => true
    | _ => false
    end
  /\ Text.contains "Moderate Pixelation" (App.pixelation_result_of v)
     = match Spec.pixelation_verdict v with
       | Spec.ModeratePixelation => true
       | _ => false
       end.
Proof.
  rewrite pixelation_result_of_verdict.
  pose proof (format_2f_chars v) as Hs. revert Hs.
  generalize (Fmt.format_2f v) as s. intros s Hs.
  assert (HL := numeric_absent "L" "" s eq_refl Hs).
  assert (HM := numeric_absent "M" "" s eq_refl Hs).
  destruct (Spec.pixelation_verdict v); cbn [Spec.pixelation_text]; split;
    try (apply contains_absent; rewrite forallb_append;
         apply andb_true_iff; split; [reflexivity | assumption]);
    apply contains_iff.
  - now exists "", (" (Likely Authentic) - Score: " ++ s).
  - now exists "", (" - Score: " ++ s).
Qed.

Lemma seal_test e : Text.contains "Detected" (App.seal_status_of e) = true.
Proof. unfold App.seal_status_of. now destruct (Fmt.ltb 100 e). Qed.

Lemma seal_text_test sv : Text.contains "Detected" (Spec.seal_text sv) = true.
Proof. now destruct sv. Qed.

Lemma seal_status_of_text e :
  exists sv, App.seal_status_of e = Spec.seal_text sv
             /\ (sv = Spec.Detected <-> (100 < e)%Q).
Proof.
  unfold App.seal_status_of. destruct (Fmt.ltb 100 e) eqn:E.
  - exists Spec.Detected. apply ltb_lt in E. tauto.
  - exists Spec.NotDetected. apply ltb_ge in E.
    repeat split; [discriminate|]. intros H. lra.
Qed.

(** The score the program gives to four signals: the rule table, with the
    seal's three points whatever the seal verdict. *)
Lemma confidence_score_table d sn sv v :
  sn <> Spec.Token "Not Found" ->
  App.confidence_score (Spec.label_text d) (Spec.serial_text sn)
    (Spec.seal_text sv) (App.pixelation_result_of v)
  = (Spec.doc_points d + Spec.serial_points sn + 3
     + Spec.pixelation_points (Spec.pixelation_verdict v))%Z.
Proof.
  intros Hsn. unfold App.confidence_score. cbv zeta.
  destruct (pixelation_tests v) as [-> ->]. rewrite seal_text_test.
  assert (Hs : negb (Spec.serial_text sn =? "Not Found")
               = match sn with Spec.NotFound => false | _ => true end).
  { destruct sn as [t|]; [|reflexivity]. simpl.
    destruct (String.eqb_spec t "Not Found"); [congruence | reflexivity]. }
  rewrite Hs.
  destruct d, sn, (Spec.pixelation_verdict v); reflexivity.
Qed.

(** On arbitrary texts the score stays between 0 and 10. *)
Lemma confidence_score_range dt sn ss pr :
  (0 <= App.confidence_score dt sn ss pr <= 10)%Z.
Proof.
  unfold App.confidence_score. cbv zeta.
  destruct (negb (dt =? "Unknown Document Type")),
    (negb (sn =? "Not Found")), (Text.contains "Detected" ss),
    (Text.contains "Low Pixelation" pr),
    (Text.contains "Moderate Pixelation" pr); lia.
Qed.

Lemma confidence_score_seal dt sn e pr :
  (3 <= App.confidence_score dt sn (App.seal_status_of e) pr)%Z.
Proof.
  unfold App.confidence_score. cbv zeta. rewrite seal_test.
  destruct (negb (dt =? "Unknown Document Type")),
    (negb (sn =? "Not Found")),
    (Text.contains "Low Pixelation" pr),
    (Text.contains "Moderate Pixelation" pr); lia.
Qed.

Lemma recommendation_cases s :
  ((7 <= s)%Z
   /\ App.recommendation s = Spec.recommendation_text Spec.Proceed)
  \/ ((5 <= s < 7)%Z
      /\ App.recommendation s = Spec.recommendation_text Spec.HoldForReview)
  \/ ((s < 5)%Z
      /\ App.recommendation s = Spec.recommendation_text Spec.HighFraudRisk).
Proof.
  unfold App.recommendation.
  destruct (7 <=? s)%Z eqn:E7; [left; split; [lia | reflexivity]|].
  destruct (5 <=? s)%Z eqn:E5, (s <? 7)%Z eqn:E7'; cbn [andb];
    first [ right; left; split; [lia | reflexivity]
          | right; right; split; [lia | reflexivity] ].
Qed.

End VerdictTexts.

(* ------------------------------------------------------------------ *)
(** * Scoring and recommendation *)

Section Scoring.
Context {U : Unicode}.

(** C1. Where the specification's rule table gives the seal three points
    only when it was detected, the program gives them also when it was not:
    on a Not-Detected seal its score is the sum of the four rule
    contributions plus three (the other three contributions are those of
    the table). *)
Theorem confidence_score_counts_absent_seal d sn v :
  sn <> Spec.Token "Not Found" ->
  App.confidence_score (Spec.label_text d) (Spec.serial_text sn)
    (Spec.seal_text Spec.NotDetected) (App.pixelation_result_of v)
  = (Spec.rule_score d sn Spec.NotDetected (Spec.pixelation_verdict v) + 3)%Z.
Proof.
  intros H. rewrite (confidence_score_table _ _ _ _ H).
  unfold Spec.rule_score. cbn [Spec.seal_points]. lia.
Qed.

Lemma confidence_score_counts_absent_seal_witness :
  App.confidence_score "Certificate of Birth" "AB1234567"
    "Seal/Signature Not Detected" (App.pixelation_result_of (150 # 1))
  = (Spec.rule_score Spec.CertificateOfBirth (Spec.Token "AB1234567")
       Spec.NotDetected (Spec.pixelation_verdict (150 # 1)) + 3)%Z.
Proof.
  apply (confidence_score_counts_absent_seal Spec.CertificateOfBirth
           (Spec.Token "AB1234567") (150 # 1)).
  discriminate.
Defined.

(** The script returns a report as soon as the three external readings of
    the image do, and the report is the assessment of those readings. *)
Lemma validate_assess Image Exn cvt blur addw ocr canny lap image t e v :
  App.extract_text Image Exn cvt blur addw ocr image = Ok t ->
  canny image = Ok e ->
  lap image = Ok v ->
  App.validate Image Exn cvt blur addw ocr canny lap image
  = Ok (App.assess t e v).
Proof.
  intros Ht He Hv.
  unfold App.validate, App.detect_seals_and_signatures,
    App.pixelation_analysis.
  now rewrite Ht, He, Hv.
Qed.

(** C2. Both texts of the seal verdict contain "Detected", so the seal's
    three points are always added: every score that the pipeline produces
    is at least 3, and never 0. *)
Theorem seal_points_always_added :
  (forall e, Text.contains "Detected" (App.seal_status_of e) = true)
  /\ Text.contains "Detected" "Seal/Signature Detected" = true
  /\ Text.contains "Detected" "Seal/Signature Not Detected" = true
  /\ (forall text e v,
        (3 <= App.score (App.assess text e v))%Z
        /\ App.score (App.assess text e v) <> 0%Z)
  /\ (forall Image Exn cvt blur addw ocr canny lap image r,
        App.validate Image Exn cvt blur addw ocr canny lap image = Ok r ->
        (3 <= App.score r)%Z /\ App.score r <> 0%Z).
Proof.
  split; [exact seal_test|]. do 2 (split; [reflexivity|]).
  assert (H : forall text e v, (3 <= App.score (App.assess text e v))%Z)
    by (intros; apply confidence_score_seal).
  split.
  - intros text e v. specialize (H text e v). lia.
  - intros Image Exn cvt blur addw ocr canny lap image r.
    unfold App.validate, App.detect_seals_and_signatures,
      App.pixelation_analysis.
    destruct (App.extract_text _ _ _ _ _ _ image) as [t|]; [|discriminate].
    destruct (canny image) as [e|]; [|discriminate].
    destruct (lap image) as [v|]; [|discriminate].
    cbn [bind]. intros [= <-]. cbn [App.score].
    pose proof (confidence_score_seal (App.detect_document_type t)
                  (App.check_serial_number t) e (App.pixelation_result_of v)).
    lia.
Qed.

(** C3. On the signals Unknown, not found, Not-Detected and
    HighPixelation the program recommends HighFraudRisk, and its score is
    3, where the rule table of the specification gives 0. *)
Theorem scenario_two (v : Q) :
  (v < 50)%Q ->
  App.confidence_score "Unknown Document Type" "Not Found"
    "Seal/Signature Not Detected" (App.pixelation_result_of v) = 3%Z
  /\ App.recommendation
       (App.confidence_score "Unknown Document Type" "Not Found"
          "Seal/Signature Not Detected" (App.pixelation_result_of v))
     = Spec.recommendation_text Spec.HighFraudRisk
  /\ Spec.rule_score Spec.Unknown Spec.NotFound Spec.NotDetected
       (Spec.pixelation_verdict v) = 0%Z.
Proof.
  intros Hv. apply verdict_thresholds in Hv.
  assert (H : App.confidence_score "Unknown Document Type" "Not Found"
                "Seal/Signature Not Detected" (App.pixelation_result_of v)
              = 3%Z).
  { change "Unknown Document Type" with (Spec.label_text Spec.Unknown).
    change "Not Found" with (Spec.serial_text Spec.NotFound).
    change "Seal/Signature Not Detected"
      with (Spec.seal_text Spec.NotDetected).
    rewrite confidence_score_table by discriminate. now rewrite Hv. }
  rewrite H, Hv. repeat split; reflexivity.
Qed.

Lemma scenario_two_witness :
  App.confidence_score "Unknown Document Type" "Not Found"
    "Seal/Signature Not Detected" (App.pixelation_result_of (12 # 1)) = 3%Z
  /\ App.recommendation
       (App.confidence_score "Unknown Document Type" "Not Found"
          "Seal/Signature Not Detected" (App.pixelation_result_of (12 # 1)))
     = Spec.recommendation_text Spec.HighFraudRisk
  /\ Spec.rule_score Spec.Unknown Spec.NotFound Spec.NotDetected
       (Spec.pixelation_verdict (12 # 1)) = 0%Z.
Proof.
  apply (scenario_two (12 # 1)). reflexivity.
Defined.

(** C4. The recommendation is Proceed exactly from 7 up, HoldForReview
    exactly on 5 and 6, HighFraudRisk exactly below 5; so 7 gives Proceed,
    6 and 5 HoldForReview, 4 HighFraudRisk. No score exceeds 10, and 10 is
    reached. *)
Theorem recommendation_thresholds :
  (forall s : Z,
      (App.recommendation s = Spec.recommendation_text Spec.Proceed
       <-> (7 <= s)%Z)
      /\ (App.recommendation s = Spec.recommendation_text Spec.HoldForReview
          <-> (5 <= s < 7)%Z)
      /\ (App.recommendation s = Spec.recommendation_text Spec.HighFraudRisk
          <-> (s < 5)%Z))
  /\ App.recommendation 7 = Spec.recommendation_text Spec.Proceed
  /\ App.recommendation 6 = Spec.recommendation_text Spec.HoldForReview
  /\ App.recommendation 5 = Spec.recommendation_text Spec.HoldForReview
  /\ App.recommendation 4 = Spec.recommendation_text Spec.HighFraudRisk
  /\ (forall dt sn ss pr, (App.confidence_score dt sn ss pr <= 10)%Z)
  /\ (exists text e v, App.score (App.assess text e v) = 10%Z).
Proof.
  split; [|repeat split; try reflexivity].
  - intros s.
    destruct (recommendation_cases s) as [[H ->] | [[H ->] | [H ->]]];
      repeat split; intros; try lia; try reflexivity; try discriminate.
  - intros. apply confidence_score_range.
  - exists "CERTIFICATE OF BIRTH No. AB1234567", (120 # 1)%Q, (150 # 1)%Q.
    reflexivity.
Qed.


End Scoring.

Lemma seal_points_always_added_witness :
  (3 <= App.score (App.assess (U := Stub.unicode) [] 0 0))%Z
  /\ App.score (App.assess (U := Stub.unicode) [] 0 0) <> 0%Z.
Proof.
  apply (proj1 (proj2 (proj2 (proj2
           (seal_points_always_added (U := Stub.unicode)))))).
Defined.

Lemma recommendation_thresholds_witness :
  App.recommendation 9 = Spec.recommendation_text Spec.Proceed.
Proof.
  apply (proj2 (proj1 (proj1 (recommendation_thresholds (U := Stub.unicode))
                         9%Z))).
  lia.
Defined.

(* ------------------------------------------------------------------ *)
(** * Text extraction *)

Section Extraction.

(** C8. [extract_text] returns the text that the engine reports on the
    preprocessed image, the empty string included; what preprocessing or the
    engine raises is raised by [extract_text] too. *)
Theorem extract_text_reports_engine :
  forall Image Exn cvt blur addw ocr image,
    (forall p t,
        App.preprocess_image Image Exn cvt blur addw image = Ok p ->
        ocr p = Ok t ->
        App.extract_text Image Exn cvt blur addw ocr image = Ok t)
    /\ (forall p e,
           App.preprocess_image Image Exn cvt blur addw image = Ok p ->
           ocr p = Raise e ->
           App.extract_text Image Exn cvt blur addw ocr image = Raise e)
    /\ (forall e,
           App.preprocess_image Image Exn cvt blur addw image = Raise e ->
           App.extract_text Image Exn cvt blur addw ocr image = Raise e).
Proof.
  intros. unfold App.extract_text.
  repeat split.
  - intros p t Hp Ht. rewrite Hp. cbn [bind]. now rewrite Ht.
  - intros p e Hp He. rewrite Hp. cbn [bind]. now rewrite He.
  - intros e He. now rewrite He.
Qed.

Lemma extract_text_reports_engine_witness :
  Stub.extract_text 1 = Ok [].
Proof.
  apply (proj1 (extract_text_reports_engine Stub.image Stub.exn Stub.cvtColor
                  Stub.blur Stub.addWeighted Stub.image_to_string 1) 1 []);
    reflexivity.
Defined.

(** An engine that fails: the failure comes out of [extract_text], not the
    empty string. *)
Lemma extract_text_propagates_failure :
  Stub.image_to_string 2 = Raise Stub.TesseractError
  /\ Stub.extract_text 2 = Raise Stub.TesseractError
  /\ Stub.extract_text 2 <> Ok []
  /\ Stub.validate 2 = Raise Stub.TesseractError.
Proof.
  repeat split. discriminate.
Qed.

End Extraction.

(* ------------------------------------------------------------------ *)
(** * Further properties of the text classifiers *)

Section TextEdges.
Context {U : Unicode}.

Local Open Scope list_scope.

Lemma occurs_length (needle hay : Str.text) :
  Spec.occurs needle hay -> List.length needle <= List.length hay.
Proof.
  intros (pre & post & ->). rewrite !List.length_app. lia.
Qed.

(** The uppercase of a character has one to three characters. *)
Lemma upper_char_length c : List.length (Str.upper_char c) <= 3.
Proof.
  unfold Str.upper_char.
  destruct (Str.is_lower c); [simpl; lia|].
  destruct (Str.is_ascii c); [simpl; lia|].
  destruct (upper_nonascii c); simpl; lia.
Qed.

Lemma upper_length (t : Str.text) :
  List.length (Str.upper t) <= 3 * List.length t.
Proof.
  induction t as [|c t IH]; [simpl; lia|].
  unfold Str.upper in *. cbn [List.flat_map List.length].
  rewrite List.length_app. pose proof (upper_char_length c). lia.
Qed.

Lemma upper_ascii_length (t : Str.text) :
  Spec.ascii_text t = true -> List.length (Str.upper t) = List.length t.
Proof.
  intros H. rewrite (upper_ascii _ H). apply List.length_map.
Qed.

(** A phrase longer than the uppercase of the text is not found. *)
Lemma contains_upper_short (phrase text : Str.text) :
  List.length (Str.upper text) < List.length phrase ->
  Str.contains phrase (Str.upper text) = false.
Proof.
  intros Hlen. destruct (Str.contains phrase _) eqn:E; [|reflexivity].
  apply text_contains_iff, occurs_length in E. lia.
Qed.

Lemma upper_short_unknown (text : Str.text) :
  List.length (Str.upper text) < 20 ->
  App.detect_document_type text = "Unknown Document Type".
Proof.
  intros Hlen. unfold App.detect_document_type.
  rewrite !contains_upper_short by (simpl; lia). reflexivity.
Qed.

Lemma serial_at_length (text pre tok post : Str.text) :
  text = pre ++ tok ++ post -> Spec.serial_at pre tok post ->
  7 <= List.length text.
Proof.
  intros -> [[[H7 _] _] _]. rewrite !List.length_app. lia.
Qed.

(** Fewer than 7 characters: no type and no serial number. *)
Lemma short_text (text : Str.text) :
  List.length text < 7 ->
  App.detect_document_type text = "Unknown Document Type"
  /\ App.check_serial_number text = "Not Found".
Proof.
  intros Hlen. split.
  - apply upper_short_unknown. pose proof (upper_length text). lia.
  - destruct (check_serial_number_cases text)
      as [(pre & tok & post & Ht & Hat & _) | [_ H]]; [|exact H].
    pose proof (serial_at_length _ _ _ _ Ht Hat). lia.
Qed.

(** X1. A text of fewer than 7 characters, the empty text first of all, has
    type Unknown, and so has an ASCII text of fewer than 20 characters:
    their uppercase is too short to hold any of the three phrases. (The
    uppercase of a text with other characters can be longer than the
    text.) *)
Theorem detect_document_type_short (text : Str.text) :
  (List.length text < 7 ->
   App.detect_document_type text = "Unknown Document Type")
  /\ (Spec.ascii_text text = true -> List.length text < 20 ->
      App.detect_document_type text = "Unknown Document Type").
Proof.
  split.
  - intros Hlen. now apply short_text.
  - intros Ha Hlen. apply upper_short_unknown.
    now rewrite upper_ascii_length.
Qed.

(** In a text made of uppercase letters and digits only, a serial number
    can only be the whole text. *)
Lemma word_text_whole (text pre tok post : Str.text) :
  List.forallb Re.is_word text = true ->
  text = pre ++ tok ++ post ->
  Spec.serial_at pre tok post ->
  pre = [] /\ post = [].
Proof.
  intros Hall -> (_ & Hpre & Hpost).
  rewrite !List.forallb_app, !andb_true_iff in Hall.
  destruct Hall as (Ha & _ & Hb). split.
  - destruct pre as [|c pre]; [reflexivity|].
    destruct (Str.last (c :: pre)) as [z|] eqn:Hz;
      [|now destruct (last_cons c pre)].
    pose proof (forallb_last _ _ _ Ha Hz) as Hc.
    simpl in Hpre. congruence.
  - destruct post as [|c post]; [reflexivity|].
    cbn [List.forallb] in Hb. apply andb_true_iff in Hb.
    destruct Hb as [Hc _]. simpl in Hpost. congruence.
Qed.

Lemma text_forallb_impl (p q : N -> bool) (s : Str.text) :
  (forall c, p c = true -> q c = true) ->
  List.forallb p s = true -> List.forallb q s = true.
Proof.
  intros Hpq. induction s as [|x s IH]; simpl; [reflexivity|].
  rewrite !andb_true_iff. intros [Hx Hs]. auto.
Qed.

Lemma pure_token_whole (text pre tok post : Str.text) :
  List.forallb App.upper_or_digit text = true ->
  text = pre ++ tok ++ post ->
  Spec.serial_at pre tok post ->
  pre = [] /\ post = [].
Proof.
  intros Hall. apply word_text_whole.
  revert Hall. apply text_forallb_impl, upper_or_digit_word.
Qed.

Lemma check_serial_number_pure (text : Str.text) :
  List.forallb App.upper_or_digit text = true ->
  App.check_serial_number text
  = if ((7 <=? List.length text) && (List.length text <=? 12))%nat%bool
    then Str.to_string text else "Not Found".
Proof.
  intros Hall.
  destruct (check_serial_number_cases text)
    as [(pre & tok & post & Htext & Hat & _ & -> & _) | [Hnone ->]].
  - destruct (pure_token_whole _ _ _ _ Hall Htext Hat) as [-> ->].
    simpl in Htext. rewrite List.app_nil_r in Htext. subst tok.
    destruct Hat as [[[H7 H12] _] _].
    apply Nat.leb_le in H7, H12. now rewrite H7, H12.
  - destruct (7 <=? List.length text)%nat eqn:H7;
      [|reflexivity].
    destruct (List.length text <=? 12)%nat eqn:H12; [|reflexivity].
    apply Nat.leb_le in H7, H12.
    destruct (Hnone [] text []).
    + simpl. now rewrite List.app_nil_r.
    + repeat split; auto.
Qed.

(** X2. On a text made only of uppercase letters and digits the answer is
    the whole text when it has 7 to 12 characters and "Not Found"
    otherwise: a longer identifier is not cut down to 12 characters, it is
    missed. *)
Theorem check_serial_number_pure_token (text : Str.text) :
  List.forallb App.upper_or_digit text = true ->
  (7 <= List.length text <= 12 ->
   App.check_serial_number text = Str.to_string text
   /\ Str.of_string (App.check_serial_number text) = text)
  /\ (List.length text < 7 \/ 12 < List.length text ->
      App.check_serial_number text = "Not Found").
Proof.
  intros Hall. rewrite (check_serial_number_pure _ Hall). split.
  - intros [H7 H12]. apply Nat.leb_le in H7, H12. rewrite H7, H12.
    split; [reflexivity | now apply of_to_string].
  - intros [H | H].
    + apply Nat.leb_gt in H. now rewrite H.
    + apply Nat.leb_gt in H. now rewrite H, andb_false_r.
Qed.

(** X3. A text of fewer than 7 characters, the empty text first of all, has
    no serial number. *)
Theorem check_serial_number_short (text : Str.text) :
  List.length text < 7 -> App.check_serial_number text = "Not Found".
Proof.
  intros Hlen. now apply short_text.
Qed.

(** X4. Looking for a serial number in the answer of [check_serial_number]
    gives that answer again: a token is found in itself, and the marker
    "Not Found" holds no token. *)
Theorem check_serial_number_idempotent (text : Str.text) :
  App.check_serial_number (Str.of_string (App.check_serial_number text))
  = App.check_serial_number text.
Proof.
  destruct (check_serial_number_cases text)
    as [(pre & tok & post & _ & [[[H7 H12] Hall] _] & _ & Hres & Hback)
       | [_ ->]];
    [|reflexivity].
  rewrite Hback, (check_serial_number_pure _ Hall).
  apply Nat.leb_le in H7, H12. now rewrite H7, H12.
Qed.

End TextEdges.

Lemma detect_document_type_short_witness :
  App.detect_document_type (U := Stub.unicode) "birth"
  = "Unknown Document Type".
Proof.
  apply (proj1 (detect_document_type_short (U := Stub.unicode) "birth")).
  simpl. lia.
Defined.

Lemma check_serial_number_pure_token_witness :
  (7 <= List.length (Str.of_string "AB12345678901") <= 12 ->
   App.check_serial_number (U := Stub.unicode) "AB12345678901"
   = Str.to_string "AB12345678901"
   /\ Str.of_string
        (App.check_serial_number (U := Stub.unicode) "AB12345678901")
      = Str.of_string "AB12345678901")
  /\ (List.length (Str.of_string "AB12345678901") < 7
      \/ 12 < List.length (Str.of_string "AB12345678901") ->
      App.check_serial_number (U := Stub.unicode) "AB12345678901"
      = "Not Found").
Proof.
  apply (check_serial_number_pure_token (U := Stub.unicode)). reflexivity.
Defined.

Lemma check_serial_number_short_witness :
  App.check_serial_number (U := Stub.unicode) "AB1234" = "Not Found".
Proof.
  apply (check_serial_number_short (U := Stub.unicode)). simpl. lia.
Defined.

(* ------------------------------------------------------------------ *)
(** * Case in the two classifiers *)

Section CaseSensitivity.
Context {U : Unicode}.

Local Open Scope list_scope.

Lemma lowercase_word (tok : Str.text) :
  List.forallb App.upper_or_digit tok = true ->
  List.forallb Re.is_word (Spec.lowercase tok) = true.
Proof.
  induction tok as [|c tok IH]; [reflexivity|].
  unfold Spec.lowercase in *. cbn [List.forallb List.map].
  rewrite !andb_true_iff. intros [Hc Ht]. split; [|now apply IH].
  unfold Re.is_word, Str.is_alnum.
  destruct (Str.is_upper c) eqn:Hu.
  - assert (Str.is_ascii (c + 32) = true) as -> by class_arith.
    assert (Str.is_lower (c + 32) = true) as -> by class_arith.
    now rewrite orb_true_r.
  - now apply upper_or_digit_word.
Qed.

Lemma lowercase_not_token (tok : Str.text) :
  List.existsb Str.is_upper tok = true ->
  List.forallb App.upper_or_digit (Spec.lowercase tok) = false.
Proof.
  induction tok as [|c tok IH]; [discriminate|].
  unfold Spec.lowercase in *. cbn [List.existsb List.forallb List.map].
  destruct (Str.is_upper c) eqn:Hu.
  - intros _.
    assert (App.upper_or_digit (c + 32) = false) as -> by class_arith.
    reflexivity.
  - cbn [orb]. intros H. rewrite (IH H). apply andb_false_r.
Qed.

(** A serial number with a letter in it is not found once in lowercase. *)
Lemma lowercase_no_serial (tok : Str.text) :
  List.forallb App.upper_or_digit tok = true ->
  List.existsb Str.is_upper tok = true ->
  App.check_serial_number (Spec.lowercase tok) = "Not Found".
Proof.
  intros Hall Hup.
  destruct (check_serial_number_cases (Spec.lowercase tok))
    as [(pre & m & post & Htext & Hat & _) | [_ H]]; [|exact H].
  destruct (word_text_whole _ _ _ _ (lowercase_word _ Hall) Htext Hat)
    as [-> ->].
  simpl in Htext. rewrite List.app_nil_r in Htext. subst m.
  destruct Hat as [[_ Hm] _].
  rewrite (lowercase_not_token _ Hup) in Hm. discriminate.
Qed.

(** C10. Classification does not see case: two texts that differ only in
    the case of their letters, such as a text and its lowercase form, get
    the same label. Serial detection does: a serial number that has a
    letter is returned when the text is that serial number and is not found
    in its lowercase form, and the all-lowercase rendering of the
    certificate below is classified like the certificate and yet has no
    serial number, where the certificate has one. *)
Theorem case_blind_classifier_case_aware_serial :
  (forall t t', Spec.case_variant t t' ->
                App.detect_document_type t = App.detect_document_type t')
  /\ (forall t, Spec.case_variant t (Spec.lowercase t)
                /\ App.detect_document_type (Spec.lowercase t)
                   = App.detect_document_type t)
  /\ (exists t t',
         Spec.lowercase t = t /\ Spec.lowercase t' = t
         /\ App.detect_document_type t <> "Unknown Document Type"
         /\ App.detect_document_type t' = App.detect_document_type t
         /\ App.check_serial_number t = "Not Found"
         /\ App.check_serial_number t' = "AB1234567")
  /\ (forall tok,
         Spec.well_formed tok -> List.existsb Str.is_upper tok = true ->
         Spec.case_variant tok (Spec.lowercase tok)
         /\ App.check_serial_number tok = Str.to_string tok
         /\ App.check_serial_number tok <> "Not Found"
         /\ App.check_serial_number (Spec.lowercase tok) = "Not Found").
Proof.
  assert (H : forall t t', Spec.case_variant t t' ->
            App.detect_document_type t = App.detect_document_type t').
  { intros t t' Hcv. unfold App.detect_document_type.
    now rewrite (case_variant_upper _ _ Hcv). }
  split; [exact H|]. split; [|split].
  - intros t. split; [apply lowercase_case_variant|].
    symmetry. apply H, lowercase_case_variant.
  - exists ("certificate of birth no. ab1234567" : Str.text),
      ("Certificate of Birth No. AB1234567" : Str.text).
    repeat split; vm_compute; discriminate.
  - intros tok [[H7 H12] Hall] Hup.
    split; [apply lowercase_case_variant|].
    assert (Hres : App.check_serial_number tok = Str.to_string tok).
    { rewrite (check_serial_number_pure _ Hall).
      apply Nat.leb_le in H7, H12. now rewrite H7, H12. }
    split; [exact Hres|]. split; [|now apply lowercase_no_serial].
    apply well_formed_not_marker.
    rewrite Hres, (of_to_string _ Hall). split; auto.
Qed.

End CaseSensitivity.

Lemma case_blind_classifier_case_aware_serial_witness :
  App.check_serial_number (U := Stub.unicode) "AB1234567"
  = Str.to_string "AB1234567"
  /\ App.check_serial_number (U := Stub.unicode) (Spec.lowercase "AB1234567")
     = "Not Found".
Proof.
  assert (H := proj2 (proj2 (proj2
                 (case_blind_classifier_case_aware_serial
                    (U := Stub.unicode))))
               (Str.of_string "AB1234567")).
  split; apply H; try reflexivity; repeat split; simpl; lia.
Defined.

(* ------------------------------------------------------------------ *)
(** * The decision as a function of the three readings *)

Section Decision.
Context {U : Unicode}.

Local Open Scope list_scope.

(** The score of an assessment, signal by signal. *)
Lemma assess_score (text : Str.text) (e v : Q) :
  exists d sn,
    App.detect_document_type text = Spec.label_text d
    /\ App.check_serial_number text = Spec.serial_text sn
    /\ (sn = Spec.NotFound <-> App.check_serial_number text = "Not Found")
    /\ App.score (App.assess text e v)
       = (Spec.doc_points d + Spec.serial_points sn + 3
          + Spec.pixelation_points (Spec.pixelation_verdict v))%Z.
Proof.
  change (App.score (App.assess text e v))
    with (App.confidence_score (App.detect_document_type text)
            (App.check_serial_number text) (App.seal_status_of e)
            (App.pixelation_result_of v)).
  destruct (detect_document_type_label text) as [d Hd].
  destruct (seal_status_of_text e) as (sv & Hsv & _).
  rewrite Hd, Hsv.
  destruct (String.eqb_spec (App.check_serial_number text) "Not Found")
    as [Hs|Hs].
  - exists d, Spec.NotFound. rewrite Hs.
    do 2 (split; [reflexivity|]). split; [tauto|].
    now apply (confidence_score_table d Spec.NotFound sv v).
  - exists d, (Spec.Token (App.check_serial_number text)).
    do 2 (split; [reflexivity|]).
    split; [split; [discriminate | intros; contradiction]|].
    apply (confidence_score_table d (Spec.Token _) sv v).
    intros [= H]. contradiction.
Qed.

Lemma label_text_unknown d :
  Spec.label_text d = "Unknown Document Type" <-> d = Spec.Unknown.
Proof. destruct d; split; intros H; try discriminate; reflexivity. Qed.

Lemma pixelation_points_cases v :
  ((v < 50)%Q /\ Spec.pixelation_points (Spec.pixelation_verdict v) = 0%Z)
  \/ ((50 <= v)%Q /\ (v < 100)%Q
      /\ Spec.pixelation_points (Spec.pixelation_verdict v) = 1%Z)
  \/ ((100 <= v)%Q
      /\ Spec.pixelation_points (Spec.pixelation_verdict v) = 2%Z).
Proof.
  destruct (verdict_thresholds v) as (HH & HM & HL).
  destruct (Spec.pixelation_verdict v).
  - right; right. split; [now apply HL | reflexivity].
  - right; left. destruct HM as [HM _]. destruct (HM eq_refl). auto.
  - left. split; [now apply HH | reflexivity].
Qed.

Lemma verdict_assess text e v :
  App.verdict (App.assess text e v)
  = App.recommendation (App.score (App.assess text e v)).
Proof. reflexivity. Qed.

(** X5. The seal reading has no influence: two assessments that differ
    only in the edge mean have the same score and the same
    recommendation. *)
Theorem seal_reading_ignored (text : Str.text) (e e' v : Q) :
  App.score (App.assess text e v) = App.score (App.assess text e' v)
  /\ App.verdict (App.assess text e v) = App.verdict (App.assess text e' v).
Proof.
  assert (H : App.score (App.assess text e v)
              = App.score (App.assess text e' v)).
  { unfold App.assess. cbn [App.score]. unfold App.confidence_score.
    cbv zeta. now rewrite !seal_test. }
  split; [exact H|]. now rewrite !verdict_assess, H.
Qed.

(** Bring the recommendation of an assessment down to arithmetic on the
    points of its signals. *)
Ltac decision_table text e v :=
  let d := fresh "d" in
  let sn := fresh "sn" in
  let Hd := fresh "Hd" in
  let Hnf := fresh "Hnf" in
  let Hsc := fresh "Hsc" in
  let Hr := fresh "Hr" in
  let Hp := fresh "Hp" in
  destruct (assess_score text e v) as (d & sn & Hd & _ & Hnf & Hsc);
  rewrite verdict_assess;
  destruct (recommendation_cases (App.score (App.assess text e v)))
    as [[Hr ->] | [[Hr ->] | [Hr ->]]];
  rewrite Hsc in Hr; rewrite Hd, label_text_unknown, <- Hnf;
  destruct (pixelation_points_cases v)
    as [[? Hp] | [(? & ? & Hp) | [? Hp]]];
  rewrite Hp in Hr; destruct d, sn; simpl in Hr; try lia.

(** X6. High Fraud Risk is recommended exactly when the type is Unknown,
    no serial number is found and the variance is below 100. *)
Theorem high_fraud_risk_iff (text : Str.text) (e v : Q) :
  App.verdict (App.assess text e v)
  = Spec.recommendation_text Spec.HighFraudRisk
  <-> App.detect_document_type text = "Unknown Document Type"
      /\ App.check_serial_number text = "Not Found"
      /\ (v < 100)%Q.
Proof.
  decision_table text e v;
    (split; [intros Hrec; try discriminate; repeat split; auto; lra
            | intros (Hdoc & Hser & Hvar); try discriminate;
              try reflexivity; lra]).
Qed.

(** X7. Proceed is recommended exactly when the type is known and either a
    serial number is found or the variance is at least 50, or when a serial
    number is found and the variance is at least 100. *)
Theorem proceed_iff (text : Str.text) (e v : Q) :
  App.verdict (App.assess text e v) = Spec.recommendation_text Spec.Proceed
  <-> (App.detect_document_type text <> "Unknown Document Type"
       /\ (App.check_serial_number text <> "Not Found" \/ (50 <= v)%Q))
      \/ (App.check_serial_number text <> "Not Found" /\ (100 <= v)%Q).
Proof.
  decision_table text e v;
    (split;
     [ intros Hrec; try discriminate;
       first [ left; split; [discriminate|];
               first [left; discriminate | right; lra]
             | right; split; [discriminate | lra] ]
     | intros [[Hdoc [Hser | Hvar]] | [Hser Hvar]]; try reflexivity;
       try (exfalso; apply Hdoc; reflexivity);
       try (exfalso; apply Hser; reflexivity); lra ]).
Qed.

(** The pixelation points are added on top of what the other three
    signals give. *)
Lemma score_split dt sn ss v :
  App.confidence_score dt sn ss (App.pixelation_result_of v)
  = (App.confidence_score dt sn ss ""
     + Spec.pixelation_points (Spec.pixelation_verdict v))%Z.
Proof.
  unfold App.confidence_score. cbv zeta.
  destruct (pixelation_tests v) as [-> ->].
  change (Text.contains "Low Pixelation" "") with false.
  change (Text.contains "Moderate Pixelation" "") with false.
  destruct (Spec.pixelation_verdict v); cbn [Spec.pixelation_points]; lia.
Qed.

(** X8. A larger variance never lowers the score. *)
Theorem score_monotone_in_variance (text : Str.text) (e v v' : Q) :
  (v <= v')%Q ->
  (App.score (App.assess text e v) <= App.score (App.assess text e v'))%Z.
Proof.
  intros Hv. unfold App.assess. cbn [App.score]. rewrite !score_split.
  destruct (pixelation_points_cases v) as [[? ->] | [(? & ? & ->) | [? ->]]];
    destruct (pixelation_points_cases v')
      as [[? ->] | [(? & ? & ->) | [? ->]]]; try lia; lra.
Qed.

(** X9. A text that holds "CERTIFIED TRANSCRIPT OF BIRTH" in uppercase is
    recommended Proceed whatever the image: the phrase gives a known type,
    its word TRANSCRIPT is taken for a serial number, and the seal's points
    are always added, which makes 8 at least. *)
Theorem transcript_always_proceeds (text pre post : Str.text) (e v : Q) :
  text = pre ++ Str.of_string "CERTIFIED TRANSCRIPT OF BIRTH" ++ post ->
  (8 <= App.score (App.assess text e v))%Z
  /\ App.verdict (App.assess text e v)
     = Spec.recommendation_text Spec.Proceed.
Proof.
  intros Htext.
  assert (Hdoc : App.detect_document_type text <> "Unknown Document Type").
  { assert (H : Str.contains "CERTIFIED TRANSCRIPT OF BIRTH"
                  (Str.upper text) = true).
    { apply text_contains_iff. rewrite Htext, !upper_append.
      now exists (Str.upper pre), (Str.upper post). }
    unfold App.detect_document_type. rewrite H.
    destruct (Str.contains "CERTIFICATE OF BIRTH" _); discriminate. }
  assert (Hser : App.check_serial_number text <> "Not Found").
  { apply well_formed_not_marker.
    apply (serial_found text (pre ++ Str.of_string "CERTIFIED ")
             (Str.of_string "TRANSCRIPT")
             (Str.of_string " OF BIRTH" ++ post)).
    - rewrite Htext. now rewrite text_app_assoc.
    - unfold Spec.serial_at, Spec.well_formed.
      change (Str.of_string "CERTIFIED ")
        with (Str.of_string "CERTIFIED" ++ [32%N]).
      rewrite List.app_assoc, last_snoc.
      split; [split; [simpl; lia | reflexivity]|].
      split; reflexivity. }
  assert (Hscore : (8 <= App.score (App.assess text e v))%Z).
  { destruct (assess_score text e v) as (d & sn & Hd & _ & Hnf & ->).
    rewrite Hd, label_text_unknown in Hdoc. rewrite <- Hnf in Hser.
    destruct (pixelation_points_cases v)
      as [[? ->] | [(? & ? & ->) | [? ->]]];
      destruct d, sn; simpl; try lia; congruence. }
  split; [exact Hscore|]. rewrite verdict_assess.
  destruct (recommendation_cases (App.score (App.assess text e v)))
    as [[_ ->] | [[Hr _] | [Hr _]]]; [reflexivity | lia | lia].
Qed.

(** X10. The scores that an assessment can have are exactly the integers
    from 3 to 10. *)
Theorem score_values (n : Z) :
  (3 <= n <= 10)%Z <-> exists text e v, App.score (App.assess text e v) = n.
Proof.
  split.
  - intros Hn.
    assert (n = 3 \/ n = 4 \/ n = 5 \/ n = 6 \/ n = 7 \/ n = 8 \/ n = 9
            \/ n = 10)%Z as H by lia.
    destruct H as [-> | [-> | [-> | [-> | [-> | [-> | [-> | ->]]]]]]].
    + now exists [], 0%Q, 0%Q.
    + now exists [], 0%Q, (60 # 1)%Q.
    + now exists [], 0%Q, (120 # 1)%Q.
    + now exists ("certificate of birth" : Str.text), 0%Q, 0%Q.
    + now exists ("certificate of birth" : Str.text), 0%Q, (60 # 1)%Q.
    + now exists ("certificate of birth" : Str.text), 0%Q, (120 # 1)%Q.
    + now exists ("CERTIFICATE OF BIRTH" : Str.text), 0%Q, (60 # 1)%Q.
    + now exists ("CERTIFICATE OF BIRTH" : Str.text), 0%Q, (120 # 1)%Q.
  - intros (text & e & v & <-).
    pose proof (confidence_score_seal (App.detect_document_type text)
                  (App.check_serial_number text) e
                  (App.pixelation_result_of v)) as Hlo.
    pose proof (confidence_score_range (App.detect_document_type text)
                  (App.check_serial_number text) (App.seal_status_of e)
                  (App.pixelation_result_of v)) as Hhi.
    unfold App.assess. cbn [App.score]. lia.
Qed.

(** X19. When the OCR gives next to nothing (fewer than 7 characters, the
    empty text first of all), only the image counts: the score is 3 plus
    the pixelation points, the recommendation is never Proceed, and it is
    Hold for Further Review exactly when the variance is at least 100. *)
Theorem blank_text_decision (text : Str.text) (e v : Q) :
  List.length text < 7 ->
  App.score (App.assess text e v)
  = (3 + Spec.pixelation_points (Spec.pixelation_verdict v))%Z
  /\ App.verdict (App.assess text e v)
     <> Spec.recommendation_text Spec.Proceed
  /\ (App.verdict (App.assess text e v)
      = Spec.recommendation_text Spec.HoldForReview <-> (100 <= v)%Q)
  /\ (App.verdict (App.assess text e v)
      = Spec.recommendation_text Spec.HighFraudRisk <-> (v < 100)%Q).
Proof.
  intros Hlen.
  destruct (short_text text Hlen) as [Hdoc Hser].
  destruct (assess_score text e v) as (d & sn & Hd & _ & Hnf & Hsc).
  rewrite Hd, label_text_unknown in Hdoc. apply Hnf in Hser. subst d sn.
  cbn [Spec.doc_points Spec.serial_points] in Hsc.
  split; [rewrite Hsc; lia|]. rewrite verdict_assess.
  destruct (recommendation_cases (App.score (App.assess text e v)))
    as [[Hr ->] | [[Hr ->] | [Hr ->]]];
    rewrite Hsc in Hr;
    destruct (pixelation_points_cases v)
      as [[? Hp] | [(? & ? & Hp) | [? Hp]]];
    rewrite Hp in Hr; try lia;
    (split; [discriminate|]); split; split; intros Hgoal;
    try discriminate; try reflexivity; lra.
Qed.

End Decision.

Lemma score_monotone_in_variance_witness :
  (App.score (App.assess (U := Stub.unicode) "certificate of birth" 0 (49 # 1))
   <= App.score
        (App.assess (U := Stub.unicode) "certificate of birth" 0 (50 # 1)))%Z.
Proof.
  apply (score_monotone_in_variance (U := Stub.unicode)). discriminate.
Defined.

Lemma transcript_always_proceeds_witness :
  (8 <= App.score
          (App.assess (U := Stub.unicode) "CERTIFIED TRANSCRIPT OF BIRTH"
             0 0))%Z
  /\ App.verdict
       (App.assess (U := Stub.unicode) "CERTIFIED TRANSCRIPT OF BIRTH" 0 0)
     = Spec.recommendation_text Spec.Proceed.
Proof.
  apply (transcript_always_proceeds (U := Stub.unicode) _ [] []).
  reflexivity.
Defined.

Lemma blank_text_decision_witness :
  App.score (App.assess (U := Stub.unicode) [] 0 (150 # 1))
  = (3 + Spec.pixelation_points (Spec.pixelation_verdict (150 # 1)))%Z
  /\ App.verdict (App.assess (U := Stub.unicode) [] 0 (150 # 1))
     <> Spec.recommendation_text Spec.Proceed
  /\ (App.verdict (App.assess (U := Stub.unicode) [] 0 (150 # 1))
      = Spec.recommendation_text Spec.HoldForReview <-> (100 <= 150 # 1)%Q)
  /\ (App.verdict (App.assess (U := Stub.unicode) [] 0 (150 # 1))
      = Spec.recommendation_text Spec.HighFraudRisk <-> (150 # 1 < 100)%Q).
Proof.
  apply (blank_text_decision (U := Stub.unicode)). simpl. lia.
Defined.

(* ------------------------------------------------------------------ *)
(** * Start-up *)

Section StartupFacts.

Lemma configure_cases (w : Startup.world) :
  (Startup.import_pytesseract w = true
   /\ Startup.path_exists w "/usr/bin/tesseract" = true
   /\ Startup.configure w = ([], Ok "/usr/bin/tesseract"))
  \/ (Startup.import_pytesseract w = true
      /\ Startup.path_exists w "/usr/bin/tesseract" = false
      /\ Startup.path_exists w "/usr/local/bin/tesseract" = true
      /\ Startup.configure w = ([], Ok "/usr/local/bin/tesseract"))
  \/ ((Startup.import_pytesseract w = false
       \/ (Startup.path_exists w "/usr/bin/tesseract" = false
           /\ Startup.path_exists w "/usr/local/bin/tesseract" = false))
      /\ Startup.configure w
         = match Startup.run w Startup.apt_update with
           | Some x =>
               ([Startup.Warning "Tesseract is missing. Installing now...";
                 Startup.Run Startup.apt_update], Raise x)
           | None =>
               ([Startup.Warning "Tesseract is missing. Installing now...";
                 Startup.Run Startup.apt_update;
                 Startup.Run Startup.apt_install],
                match Startup.run w Startup.apt_install with
                | Some x => Raise x
                | None =>
                    if Startup.reimport_pytesseract w
                    then Ok "/usr/bin/tesseract"
                    else Raise Startup.ImportError
                end)
           end).
Proof.
  unfold Startup.configure, Startup.locate, Startup.install_tesseract,
    Startup.subprocess_run, Startup.possible_paths.
  cbn [Startup.probe].
  destruct (Startup.import_pytesseract w);
    [destruct (Startup.path_exists w "/usr/bin/tesseract");
     [|destruct (Startup.path_exists w "/usr/local/bin/tesseract")]|].
  1: now left.
  1: right; left; auto.
  all: right; right; split; [auto|];
    destruct (Startup.run w Startup.apt_update); [reflexivity|];
    destruct (Startup.run w Startup.apt_install); [reflexivity|];
    destruct (Startup.reimport_pytesseract w); reflexivity.
Qed.

(** X12. The block runs nothing and warns of nothing exactly when
    [pytesseract] imports and one of the two known paths exists; the path it
    then selects exists, and it is /usr/bin/tesseract whenever that one
    exists. *)
Theorem configure_quiet (w : Startup.world) :
  (fst (Startup.configure w) = []
   <-> Startup.import_pytesseract w = true
       /\ (Startup.path_exists w "/usr/bin/tesseract" = true
           \/ Startup.path_exists w "/usr/local/bin/tesseract" = true))
  /\ (fst (Startup.configure w) = [] ->
      exists p, snd (Startup.configure w) = Ok p
                /\ Startup.path_exists w p = true
                /\ (Startup.path_exists w "/usr/bin/tesseract" = true ->
                    p = "/usr/bin/tesseract")).
Proof.
  destruct (configure_cases w)
    as [(Hi & H1 & ->) | [(Hi & H1 & H2 & ->) | [Hno ->]]].
  - split; [tauto|]. intros _. now exists "/usr/bin/tesseract".
  - split; [tauto|]. intros _. exists "/usr/local/bin/tesseract".
    repeat split; auto. congruence.
  - destruct (Startup.run w Startup.apt_update); cbn [fst];
      (split; [split; [discriminate|] | discriminate]);
      intros [Hi [H1 | H2]]; destruct Hno as [Hno | [Hno1 Hno2]]; congruence.
Qed.

Lemma configure_quiet_witness :
  exists p, snd (Startup.configure Startup.local_only) = Ok p
            /\ Startup.path_exists Startup.local_only p = true
            /\ (Startup.path_exists Startup.local_only "/usr/bin/tesseract"
                = true -> p = "/usr/bin/tesseract").
Proof.
  apply (proj2 (configure_quiet Startup.local_only)). reflexivity.
Defined.

(** X13. The only commands the block ever runs are the package update and
    the package installation, the installation only after an update that
    succeeded; when it has run anything, [tesseract_cmd] is set, to
    /usr/bin/tesseract, only if both commands and the second import
    succeeded, and otherwise the exception leaves the block. *)
Theorem configure_install_order (w : Startup.world) :
  (forall cmd, In (Startup.Run cmd) (fst (Startup.configure w)) ->
               cmd = Startup.apt_update \/ cmd = Startup.apt_install)
  /\ (In (Startup.Run Startup.apt_install) (fst (Startup.configure w)) ->
      In (Startup.Run Startup.apt_update) (fst (Startup.configure w))
      /\ Startup.run w Startup.apt_update = None)
  /\ (forall x, Startup.run w Startup.apt_update = Some x ->
                fst (Startup.configure w) <> [] ->
                snd (Startup.configure w) = Raise x)
  /\ (forall p, snd (Startup.configure w) = Ok p ->
                fst (Startup.configure w) <> [] ->
                p = "/usr/bin/tesseract"
                /\ Startup.run w Startup.apt_update = None
                /\ Startup.run w Startup.apt_install = None
                /\ Startup.reimport_pytesseract w = true).
Proof.
  destruct (configure_cases w)
    as [(Hi & H1 & ->) | [(Hi & H1 & H2 & ->) | [Hno ->]]].
  1, 2: cbn [fst snd In]; repeat split; intros; try tauto; congruence.
  destruct (Startup.run w Startup.apt_update) as [x|] eqn:Hu;
    [|destruct (Startup.run w Startup.apt_install) as [y|] eqn:Hin;
      [|destruct (Startup.reimport_pytesseract w) eqn:Hre]];
    cbn [fst snd In]; repeat split; intros;
    repeat match goal with
      | H : _ \/ _ |- _ => destruct H
      | H : False |- _ => destruct H
      | H : Startup.Run _ = Startup.Run _ |- _ => injection H as H
      | H : Startup.Warning _ = Startup.Run _ |- _ => discriminate H
      | H : Ok _ = Ok _ |- _ => injection H as H
      | H : Raise _ = Ok _ |- _ => discriminate H
      | H : Some _ = Some _ |- _ => injection H as H
      end;
    subst; auto; try discriminate; try congruence.
Qed.

Lemma configure_install_order_witness :
  snd (Startup.configure Startup.bare_offline)
  = Raise Startup.CalledProcessError.
Proof.
  apply (proj1 (proj2 (proj2 (configure_install_order
                                Startup.bare_offline)))).
  - reflexivity.
  - discriminate.
Defined.

End StartupFacts.

(* ------------------------------------------------------------------ *)
(** * The report text *)

Section ReportText.
Context {U : Unicode}.

Lemma append_inv_head (a b c : string) : a ++ b = a ++ c -> b = c.
Proof.
  induction a as [|x a IH]; simpl; [trivial|].
  intros H. injection H as H. auto.
Qed.

(** Two texts free of a character, each followed by that character: equal
    wholes have equal parts. *)
Lemma separator_inj (c : ascii) : forall a a' b b' : string,
  Text.forallb (fun x => negb (Ascii.eqb x c)) a = true ->
  Text.forallb (fun x => negb (Ascii.eqb x c)) a' = true ->
  a ++ String c b = a' ++ String c b' ->
  a = a' /\ b = b'.
Proof.
  induction a as [|x a IH]; intros [|x' a'] b b' Ha Ha' H; simpl in *.
  - injection H as H. auto.
  - injection H as -> _. now rewrite Ascii.eqb_refl in Ha'.
  - injection H as -> _. now rewrite Ascii.eqb_refl in Ha.
  - injection H as -> H. apply andb_true_iff in Ha, Ha'.
    destruct (IH a' b b') as [-> ->]; tauto.
Qed.

Lemma line_inj (a a' b b' : string) :
  Render.single_line a = true -> Render.single_line a' = true ->
  a ++ Render.nl ++ b = a' ++ Render.nl ++ b' ->
  a = a' /\ b = b'.
Proof. apply (separator_inj "010"). Qed.

Lemma decimal_no_slash n :
  Text.forallb (fun x => negb (Ascii.eqb x "/")) (Fmt.decimal n) = true.
Proof.
  apply (forallb_impl Text.is_digit); [|apply decimal_digits].
  intros c Hc. destruct (Ascii.eqb_spec c "/") as [->|]; [discriminate|].
  reflexivity.
Qed.

Lemma str_int_inj (n n' : Z) (b b' : string) :
  (0 <= n)%Z -> (0 <= n')%Z ->
  Render.str_int n ++ "/10" ++ b = Render.str_int n' ++ "/10" ++ b' ->
  n = n' /\ b = b'.
Proof.
  intros Hn Hn'. unfold Render.str_int.
  apply Z.ltb_ge in Hn, Hn'. rewrite Hn, Hn'. intros H.
  apply (separator_inj "/") in H; try apply decimal_no_slash.
  destruct H as [Hd Hb]. injection Hb as Hb. split; [|exact Hb].
  apply Z.ltb_ge in Hn, Hn'.
  pose proof (parse_decimal_decimal n Hn) as P.
  rewrite Hd, (parse_decimal_decimal n' Hn') in P. congruence.
Qed.

(** X14. The downloadable text determines the report: two reports whose
    texts are single lines and whose scores are not negative, and that
    render to the same text, are the same report. *)
Theorem report_text_injective (r r' : App.report) :
  Render.printable r = true -> Render.printable r' = true ->
  Render.report_text r = Render.report_text r' ->
  r = r'.
Proof.
  destruct r as [dt sn ss pr sc vd], r' as [dt' sn' ss' pr' sc' vd'].
  unfold Render.printable, Render.report_text.
  cbn [App.document_type App.serial_number App.seal_status
       App.pixelation_result App.score App.verdict].
  rewrite !andb_true_iff.
  intros [[[[[H1 H2] H3] H4] H5] H6] [[[[[H1' H2'] H3'] H4'] H5'] H6'] H.
  apply Z.leb_le in H6, H6'.
  repeat apply append_inv_head in H.
  apply (line_inj _ _ _ _ H1 H1') in H. destruct H as [-> H].
  repeat apply append_inv_head in H.
  apply (line_inj _ _ _ _ H2 H2') in H. destruct H as [-> H].
  repeat apply append_inv_head in H.
  apply (line_inj _ _ _ _ H3 H3') in H. destruct H as [-> H].
  repeat apply append_inv_head in H.
  apply (line_inj _ _ _ _ H4 H4') in H. destruct H as [-> H].
  repeat apply append_inv_head in H.
  apply (str_int_inj _ _ _ _ H6 H6') in H. destruct H as [-> H].
  repeat apply append_inv_head in H.
  apply (line_inj _ _ _ _ H5 H5') in H. destruct H as [-> _].
  reflexivity.
Qed.

Lemma append_eq_length : forall x y u v : string,
  String.length x = String.length u -> x ++ y = u ++ v -> x = u /\ y = v.
Proof.
  induction x as [|c x IH]; intros y [|d u] v Hlen H;
    try discriminate; [auto|].
  simpl in *. injection H as -> H. injection Hlen as Hlen.
  destruct (IH _ _ _ Hlen H) as [-> ->]. auto.
Qed.

Lemma append_inv_tail (a b c : string) : a ++ c = b ++ c -> a = b.
Proof.
  intros H. apply (append_eq_length a c b c); [|exact H].
  apply (f_equal String.length) in H. rewrite !length_append in H. lia.
Qed.

(** A line of the Markdown: the value, two spaces, a line break. *)
Lemma markdown_line_inj (a a' b b' : string) :
  Render.single_line a = true -> Render.single_line a' = true ->
  a ++ "  " ++ Render.nl ++ b = a' ++ "  " ++ Render.nl ++ b' ->
  a = a' /\ b = b'.
Proof.
  intros Ha Ha' H.
  change (a ++ "  " ++ Render.nl ++ b) with (a ++ "  " ++ (Render.nl ++ b))
    in H.
  change (a' ++ "  " ++ Render.nl ++ b')
    with (a' ++ "  " ++ (Render.nl ++ b')) in H.
  rewrite <- (append_assoc a "  " (Render.nl ++ b)) in H.
  rewrite <- (append_assoc a' "  " (Render.nl ++ b')) in H.
  apply line_inj in H.
  - destruct H as [H ->]. apply append_inv_tail in H. auto.
  - unfold Render.single_line in *. now rewrite forallb_append, Ha.
  - unfold Render.single_line in *. now rewrite forallb_append, Ha'.
Qed.

Lemma markdown_inj (r r' : App.report) :
  Render.printable r = true -> Render.printable r' = true ->
  Render.markdown r = Render.markdown r' ->
  r = r'.
Proof.
  destruct r as [dt sn ss pr sc vd], r' as [dt' sn' ss' pr' sc' vd'].
  unfold Render.printable, Render.markdown.
  cbn [App.document_type App.serial_number App.seal_status
       App.pixelation_result App.score App.verdict].
  rewrite !andb_true_iff.
  intros [[[[[H1 H2] H3] H4] H5] H6] [[[[[H1' H2'] H3'] H4'] H5'] H6'] H.
  apply Z.leb_le in H6, H6'.
  repeat apply append_inv_head in H.
  apply (markdown_line_inj _ _ _ _ H1 H1') in H. destruct H as [-> H].
  repeat apply append_inv_head in H.
  apply (markdown_line_inj _ _ _ _ H2 H2') in H. destruct H as [-> H].
  repeat apply append_inv_head in H.
  apply (markdown_line_inj _ _ _ _ H3 H3') in H. destruct H as [-> H].
  repeat apply append_inv_head in H.
  apply (markdown_line_inj _ _ _ _ H4 H4') in H. destruct H as [-> H].
  repeat apply append_inv_head in H.
  apply (str_int_inj _ _ ("  " ++ _) ("  " ++ _) H6 H6') in H.
  destruct H as [-> H].
  repeat apply append_inv_head in H.
  apply (markdown_line_inj _ _ _ _ H5 H5') in H. destruct H as [-> _].
  reflexivity.
Qed.

Lemma report_text_inj (r r' : App.report) :
  Render.printable r = true -> Render.printable r' = true ->
  Render.report_text r = Render.report_text r' ->
  r = r'.
Proof.
  destruct r as [dt sn ss pr sc vd], r' as [dt' sn' ss' pr' sc' vd'].
  unfold Render.printable, Render.report_text.
  cbn [App.document_type App.serial_number App.seal_status
       App.pixelation_result App.score App.verdict].
  rewrite !andb_true_iff.
  intros [[[[[H1 H2] H3] H4] H5] H6] [[[[[H1' H2'] H3'] H4'] H5'] H6'] H.
  apply Z.leb_le in H6, H6'.
  repeat apply append_inv_head in H.
  apply (line_inj _ _ _ _ H1 H1') in H. destruct H as [-> H].
  repeat apply append_inv_head in H.
  apply (line_inj _ _ _ _ H2 H2') in H. destruct H as [-> H].
  repeat apply append_inv_head in H.
  apply (line_inj _ _ _ _ H3 H3') in H. destruct H as [-> H].
  repeat apply append_inv_head in H.
  apply (line_inj _ _ _ _ H4 H4') in H. destruct H as [-> H].
  repeat apply append_inv_head in H.
  apply (str_int_inj _ _ _ _ H6 H6') in H. destruct H as [-> H].
  repeat apply append_inv_head in H.
  apply (line_inj _ _ _ _ H5 H5') in H. destruct H as [-> _].
  reflexivity.
Qed.

(** X20. The page and the download say the same: two printable reports
    have the same Markdown exactly when they have the same downloadable
    text, and either text determines the report. *)
Theorem markdown_agrees_with_report_text (r r' : App.report) :
  Render.printable r = true -> Render.printable r' = true ->
  (Render.markdown r = Render.markdown r'
   <-> Render.report_text r = Render.report_text r')
  /\ (Render.markdown r = Render.markdown r' -> r = r').
Proof.
  intros Hr Hr'. split; [split; intros H|].
  - now rewrite (markdown_inj _ _ Hr Hr' H).
  - now rewrite (report_text_inj _ _ Hr Hr' H).
  - now apply markdown_inj.
Qed.

Lemma single_line_numeric (s : string) :
  Text.forallb Spec.numeric_char s = true -> Render.single_line s = true.
Proof.
  apply forallb_impl. intros c Hc.
  destruct (Ascii.eqb_spec c "010") as [->|]; [discriminate | reflexivity].
Qed.

Lemma single_line_token (tok : Str.text) :
  List.forallb App.upper_or_digit tok = true ->
  Render.single_line (Str.to_string tok) = true.
Proof.
  induction tok as [|c tok IH]; [reflexivity|].
  cbn [List.forallb]. rewrite andb_true_iff. intros [Hc Ht].
  unfold Str.to_string, Render.single_line in *.
  cbn [List.map string_of_list_ascii Text.forallb].
  rewrite (IH Ht), andb_true_r.
  destruct (Ascii.eqb_spec (ascii_of_N c) "010") as [E|]; [|reflexivity].
  apply (f_equal N_of_ascii) in E.
  rewrite N_ascii_embedding in E by class_arith.
  change (N_of_ascii "010") with 10%N in E. class_arith.
Qed.

(** X15. Every report that the script builds can be printed without
    ambiguity: none of its five texts holds a line break, and its score is
    not negative. *)
Theorem assess_printable (text : Str.text) (e v : Q) :
  Render.printable (App.assess text e v) = true.
Proof.
  unfold Render.printable, App.assess.
  cbn [App.document_type App.serial_number App.seal_status
       App.pixelation_result App.score App.verdict].
  rewrite !andb_true_iff. repeat split.
  - destruct (detect_document_type_label text) as [d ->]. now destruct d.
  - destruct (check_serial_number_cases text)
      as [(_ & tok & _ & _ & [[_ Hall] _] & _ & -> & _) | [_ ->]];
      [now apply single_line_token | reflexivity].
  - destruct (seal_status_of_text e) as (sv & -> & _). now destruct sv.
  - rewrite pixelation_result_of_verdict. unfold Render.single_line.
    rewrite forallb_append, andb_true_iff. split.
    + now destruct (Spec.pixelation_verdict v).
    + apply single_line_numeric, format_2f_chars.
  - destruct (recommendation_cases
                (App.confidence_score (App.detect_document_type text)
                   (App.check_serial_number text) (App.seal_status_of e)
                   (App.pixelation_result_of v)))
      as [[_ ->] | [[_ ->] | [_ ->]]]; reflexivity.
  - apply Z.leb_le.
    pose proof (confidence_score_seal (App.detect_document_type text)
                  (App.check_serial_number text) e
                  (App.pixelation_result_of v)).
    lia.
Qed.

End ReportText.

Lemma report_text_injective_witness :
  App.assess (U := Stub.unicode) "certificate of birth" 0 0
  = App.assess (U := Stub.unicode) "Certificate of Birth" (1 # 3) (1 # 1000).
Proof.
  apply report_text_injective; reflexivity.
Defined.

Lemma markdown_agrees_with_report_text_witness :
  (Render.markdown (App.assess (U := Stub.unicode) "certificate of birth" 0 0)
   = Render.markdown (App.assess (U := Stub.unicode) "AB1234567" 0 0)
   <-> Render.report_text
         (App.assess (U := Stub.unicode) "certificate of birth" 0 0)
       = Render.report_text (App.assess (U := Stub.unicode) "AB1234567" 0 0))
  /\ (Render.markdown
        (App.assess (U := Stub.unicode) "certificate of birth" 0 0)
      = Render.markdown (App.assess (U := Stub.unicode) "AB1234567" 0 0) ->
      App.assess (U := Stub.unicode) "certificate of birth" 0 0
      = App.assess (U := Stub.unicode) "AB1234567" 0 0).
Proof. apply markdown_agrees_with_report_text; reflexivity. Defined.

(* ------------------------------------------------------------------ *)
(** * Longer texts *)

Section LongerTexts.
Context {U : Unicode}.

Local Open Scope list_scope.

Lemma upper_extension (needle pre text post : Str.text) :
  Str.contains needle (Str.upper text) = true ->
  Str.contains needle (Str.upper (pre ++ text ++ post)) = true.
Proof.
  rewrite !text_contains_iff, !upper_append. intros (a & b & ->).
  exists (Str.upper pre ++ a), (b ++ Str.upper post).
  now rewrite !text_app_assoc.
Qed.

(** X16. Text added before or after a document does not take its type
    away: a Certificate of Birth stays one, and a document of a known type
    stays of a known type. *)
Theorem detect_document_type_extension (pre text post : Str.text) :
  (App.detect_document_type text = "Certificate of Birth" ->
   App.detect_document_type (pre ++ text ++ post) = "Certificate of Birth")
  /\ (App.detect_document_type text <> "Unknown Document Type" ->
      App.detect_document_type (pre ++ text ++ post)
      <> "Unknown Document Type").
Proof.
  pose proof (upper_extension "CERTIFICATE OF BIRTH" pre text post) as E1.
  pose proof (upper_extension "CERTIFIED TRANSCRIPT OF BIRTH" pre text post)
    as E2.
  pose proof (upper_extension "CERTIFICATE OF LIVE BIRTH" pre text post)
    as E3.
  unfold App.detect_document_type.
  destruct (Str.contains "CERTIFICATE OF BIRTH" (Str.upper text));
    [rewrite (E1 eq_refl); split; [reflexivity | discriminate]|].
  destruct (Str.contains "CERTIFIED TRANSCRIPT OF BIRTH" (Str.upper text));
    [rewrite (E2 eq_refl); split; [discriminate|];
     destruct (Str.contains "CERTIFICATE OF BIRTH" _); discriminate|].
  destruct (Str.contains "CERTIFICATE OF LIVE BIRTH" (Str.upper text));
    [rewrite (E3 eq_refl); split; [discriminate|];
     destruct (Str.contains "CERTIFICATE OF BIRTH" _);
     [|destruct (Str.contains "CERTIFIED TRANSCRIPT OF BIRTH" _)];
     discriminate|].
  split; [discriminate | intros H; now destruct H].
Qed.

Lemma text_app_eq_app : forall x y u v : Str.text,
  x ++ y = u ++ v ->
  (exists z, u = x ++ z /\ y = z ++ v)
  \/ (exists z, x = u ++ z /\ v = z ++ y).
Proof.
  induction x as [|c x IH]; intros y u v H.
  - left. now exists u.
  - destruct u as [|d u].
    + right. now exists (c :: x).
    + simpl in H. injection H as -> H.
      destruct (IH _ _ _ H) as [(z & -> & ->) | (z & -> & ->)];
        [left | right]; now exists z.
Qed.

Lemma text_app_eq_length : forall x y u v : Str.text,
  List.length x = List.length u -> x ++ y = u ++ v -> x = u /\ y = v.
Proof.
  induction x as [|c x IH]; intros y [|d u] v Hlen H;
    try discriminate; [auto|].
  simpl in *. injection H as -> H. injection Hlen as Hlen.
  destruct (IH _ _ _ Hlen H) as [-> ->]. auto.
Qed.

(** At one place of a text there is at most one serial number. *)
Lemma serial_at_unique (pre tok post tok' post' : Str.text) :
  tok ++ post = tok' ++ post' ->
  Spec.serial_at pre tok post -> Spec.serial_at pre tok' post' ->
  tok = tok'.
Proof.
  intros E H H'.
  assert (M : Re.match_here App.serial_pattern (Str.last pre) (tok ++ post)
              = Some tok) by (apply match_here_serial; eauto).
  assert (M' : Re.match_here App.serial_pattern (Str.last pre)
                 (tok ++ post) = Some tok')
    by (apply match_here_serial; eauto).
  congruence.
Qed.

Lemma well_formed_chars (tok a b : Str.text) c :
  Spec.well_formed tok -> tok = a ++ c :: b -> Re.is_word c = true.
Proof.
  intros [_ Hall] ->. rewrite List.forallb_app in Hall.
  apply andb_true_iff in Hall. destruct Hall as [_ Hall].
  cbn [List.forallb] in Hall. apply andb_true_iff in Hall.
  now apply upper_or_digit_word.
Qed.

Lemma no_serial (text : Str.text) :
  App.check_serial_number text = "Not Found" ->
  forall pre tok post,
    text = pre ++ tok ++ post -> ~ Spec.serial_at pre tok post.
Proof.
  intros H.
  destruct (check_serial_number_cases text)
    as [(_ & tok & _ & _ & [Hwf _] & _ & _ & Hres) | [Hnone _]];
    [|exact Hnone].
  rewrite <- Hres in Hwf. destruct (well_formed_not_marker _ Hwf H).
Qed.

(** A serial number in two texts joined by a character that is not a word
    character lies in the first text or in the second. *)
Lemma occurrence_split c (a b pre tok post : Str.text) :
  Re.is_word c = false ->
  a ++ c :: b = pre ++ tok ++ post ->
  Spec.serial_at pre tok post ->
  (exists z, a = pre ++ tok ++ z /\ Spec.serial_at pre tok z)
  \/ (exists p, pre = a ++ c :: p /\ b = p ++ tok ++ post
                /\ Spec.serial_at p tok post).
Proof.
  intros Hc H (Hwf & Hpre & Hpost).
  assert (Hne : forall x y, tok = x ++ c :: y -> False).
  { intros x y E. pose proof (well_formed_chars _ _ _ _ Hwf E).
    congruence. }
  assert (Hlen : 7 <= List.length tok) by apply Hwf.
  destruct (text_app_eq_app _ _ _ _ H) as [(z & -> & Hz) | (z & -> & Hz)].
  - right. destruct z as [|d p].
    + exfalso. destruct tok as [|t tok]; [simpl in Hlen; lia|].
      simpl in Hz. injection Hz as <- _. exact (Hne [] tok eq_refl).
    + simpl in Hz. injection Hz as <- ->. exists p.
      do 2 (split; [reflexivity|]).
      split; [exact Hwf|]. split; [|exact Hpost].
      rewrite last_append_cons in Hpre.
      destruct p; [reflexivity | exact Hpre].
  - left.
    destruct (text_app_eq_app _ _ _ _ Hz) as [(y & -> & E) | (y & Hy & E)].
    + exists y. split; [reflexivity|]. subst post.
      split; [exact Hwf|]. split; [exact Hpre|].
      destruct y; [reflexivity | exact Hpost].
    + destruct y as [|d y].
      * rewrite List.app_nil_r in Hy. subst z. exists [].
        rewrite List.app_nil_r. split; [reflexivity|].
        split; [exact Hwf|]. split; [exact Hpre | reflexivity].
      * exfalso. simpl in E. injection E as <- _.
        exact (Hne z y Hy).
Qed.

(** A serial number of the first text is one of the joined text, and so is
    one of the second. *)
Lemma occurrence_left c (b pre tok post : Str.text) :
  Re.is_word c = false ->
  Spec.serial_at pre tok post ->
  Spec.serial_at pre tok (post ++ c :: b).
Proof.
  intros Hc (Hwf & Hpre & Hpost). split; [exact Hwf|]. split; [exact Hpre|].
  destruct post; simpl; [now rewrite Hc | exact Hpost].
Qed.

Lemma occurrence_right c (a pre tok post : Str.text) :
  Re.is_word c = false ->
  Spec.serial_at pre tok post ->
  Spec.serial_at (a ++ c :: pre) tok post.
Proof.
  intros Hc (Hwf & Hpre & Hpost). split; [exact Hwf|]. split; [|exact Hpost].
  rewrite last_append_cons.
  destruct pre; [simpl; now rewrite Hc | exact Hpre].
Qed.

(** X17. The first serial number wins for good: text added after a found
    serial number, behind any character that is not a word character (not
    a letter, a digit or an underscore: a line break, a space), does not
    change the answer. *)
Theorem check_serial_number_first_wins c (a b : Str.text) :
  Re.is_word c = false ->
  App.check_serial_number a <> "Not Found" ->
  App.check_serial_number (a ++ c :: b) = App.check_serial_number a.
Proof.
  intros Hc Hfound.
  destruct (check_serial_number_cases a)
    as [(pre & tok & post & Ha & Hat & Hleft & Hres & _) | [_ H]];
    [|congruence].
  rewrite Hres.
  assert (Ht : a ++ c :: b = pre ++ tok ++ post ++ c :: b)
    by (rewrite Ha; now rewrite !text_app_assoc).
  pose proof (occurrence_left c b _ _ _ Hc Hat) as Hat2.
  destruct (check_serial_number_cases (a ++ c :: b))
    as [(pre' & tok' & post' & Ht' & Hat' & Hleft' & -> & _) | [Hnone _]];
    [|destruct (Hnone _ _ _ Ht Hat2)].
  specialize (Hleft' _ _ _ Ht Hat2).
  destruct (occurrence_split c a b _ _ _ Hc Ht' Hat')
    as [(z & Hz & Hatz) | (p & -> & _)].
  - specialize (Hleft _ _ _ Hz Hatz).
    rewrite Ha in Hz.
    destruct (text_app_eq_length pre _ pre' _ ltac:(lia) Hz) as [<- E].
    f_equal. symmetry. exact (serial_at_unique _ _ _ _ _ E Hat Hatz).
  - exfalso. rewrite List.length_app in Hleft'. simpl in Hleft'.
    assert (List.length pre <= List.length a)
      by (rewrite Ha, List.length_app; lia).
    lia.
Qed.

(** X18. Text without a serial number in front, closed by a character that
    is not a word character (not a letter, a digit or an underscore), is
    passed over: the answer is that of the text behind it. *)
Theorem check_serial_number_skips_empty_lines c (a b : Str.text) :
  Re.is_word c = false ->
  App.check_serial_number a = "Not Found" ->
  App.check_serial_number (a ++ c :: b) = App.check_serial_number b.
Proof.
  intros Hc Hnf. pose proof (no_serial a Hnf) as Hnone_a.
  assert (Hin_b : forall pre tok post,
            a ++ c :: b = pre ++ tok ++ post ->
            Spec.serial_at pre tok post ->
            exists p, pre = a ++ c :: p /\ b = p ++ tok ++ post
                      /\ Spec.serial_at p tok post).
  { intros pre tok post Ht Hat.
    destruct (occurrence_split c a b _ _ _ Hc Ht Hat)
      as [(z & Hz & Hatz) | Hp]; [|exact Hp].
    destruct (Hnone_a _ _ _ Hz Hatz). }
  destruct (check_serial_number_cases b)
    as [(p & tok & q & Hb & Hat & Hleft & -> & _) | [Hnone_b ->]].
  - assert (Ht : a ++ c :: b = (a ++ c :: p) ++ tok ++ q)
      by (rewrite Hb; now rewrite text_app_assoc).
    pose proof (occurrence_right c a _ _ _ Hc Hat) as Hat2.
    destruct (check_serial_number_cases (a ++ c :: b))
      as [(pre' & tok' & post' & Ht' & Hat' & Hleft' & -> & _) | [Hnone _]];
      [|destruct (Hnone _ _ _ Ht Hat2)].
    specialize (Hleft' _ _ _ Ht Hat2).
    destruct (Hin_b _ _ _ Ht' Hat') as (p' & -> & Hb' & Hatp').
    specialize (Hleft _ _ _ Hb' Hatp').
    rewrite !List.length_app in Hleft'. simpl in Hleft'.
    rewrite Hb in Hb'.
    destruct (text_app_eq_length p _ p' _ ltac:(lia) Hb') as [<- E].
    f_equal. symmetry. exact (serial_at_unique _ _ _ _ _ E Hat Hatp').
  - destruct (check_serial_number_cases (a ++ c :: b))
      as [(pre' & tok' & post' & Ht' & Hat' & _ & _) | [_ H]]; [|exact H].
    destruct (Hin_b _ _ _ Ht' Hat') as (p' & _ & Hb' & Hatp').
    destruct (Hnone_b _ _ _ Hb' Hatp').
Qed.

End LongerTexts.

Lemma detect_document_type_extension_witness :
  App.detect_document_type (U := Stub.unicode)
    (Str.of_string "Republic of X "
     ++ Str.of_string "certificate of birth" ++ Str.of_string " no. 12")%list
  = "Certificate of Birth".
Proof.
  apply (proj1 (detect_document_type_extension (U := Stub.unicode) _ _ _)).
  reflexivity.
Defined.

Lemma check_serial_number_first_wins_witness :
  App.check_serial_number (U := Stub.unicode)
    (Str.of_string "No. AB1234567"
     ++ 10%N :: Str.of_string "Ref. ZZ9999999")%list
  = App.check_serial_number (U := Stub.unicode) "No. AB1234567".
Proof.
  apply (check_serial_number_first_wins (U := Stub.unicode));
    [reflexivity | discriminate].
Defined.

Lemma check_serial_number_skips_empty_lines_witness :
  App.check_serial_number (U := Stub.unicode)
    (Str.of_string "Certificate of birth"
     ++ 10%N :: Str.of_string "No. AB1234567")%list
  = App.check_serial_number (U := Stub.unicode) "No. AB1234567".
Proof.
  apply (check_serial_number_skips_empty_lines (U := Stub.unicode));
    reflexivity.
Defined.

(* ------------------------------------------------------------------ *)
(** * Characters outside ASCII

    What the classifiers do on a few texts with letters that are not ASCII,
    with the uppercase and the classes that Unicode gives those letters. *)

Section BeyondAscii.

Local Open Scope list_scope.

(** Dotless i has the uppercase I, and the ligature fi the uppercase FI:
    the phrase is found in texts that do not hold it in any case, one of
    them shorter than the phrase. *)
Lemma detect_document_type_beyond_ascii :
  App.detect_document_type (U := Stub.unicode)
    (Str.of_string "cert" ++ 305%N :: Str.of_string "f" ++ 305%N
       :: Str.of_string "cate of b" ++ 305%N :: Str.of_string "rth")
  = "Certificate of Birth"
  /\ App.detect_document_type (U := Stub.unicode)
       (Str.of_string "certi" ++ 64257%N :: Str.of_string "cate of birth")
     = "Certificate of Birth"
  /\ List.length
       (Str.of_string "certi" ++ 64257%N :: Str.of_string "cate of birth")
     = 19.
Proof. repeat split. Qed.

(** A letter with an accent is a word character: a run next to it is not
    a serial number. *)
Lemma check_serial_number_beyond_ascii :
  App.check_serial_number (U := Stub.unicode)
    (233%N :: Str.of_string "ABCDEFG") = "Not Found"
  /\ App.check_serial_number (U := Stub.unicode)
       (Str.of_string "AB1234567" ++ [233%N]) = "Not Found"
  /\ App.check_serial_number (U := Stub.unicode)
       (Str.of_string "x" ++ 233%N :: Str.of_string "ABCDEFG") = "Not Found"
  /\ App.check_serial_number (U := Stub.unicode)
       (233%N :: Str.of_string "CERTIFICATE OF BIRTH") = "Not Found".
Proof. repeat split. Qed.

End BeyondAscii.
